(** * JNI bindings for libsecp256k1: a shallow embedding

    This development embeds [scalus_secp256k1.c], the native side of
    [scalus.crypto.NativeSecp256k1], and proves properties of its three
    verification entry points and of its lazily initialised context.

    The C file talks to three collaborators: the JVM (through [JNIEnv]),
    libsecp256k1 and [pthread_once].  Each call to a collaborator is recorded
    in a trace, so that statements about the order of calls, about released
    buffers and about calls that never happen are statements about lists. *)

From Stdlib Require Import ZArith List Lia Bool Init.Byte.
From stdpp Require Import base option gmap list.

(** ** Data model *)

(** A [jbyteArray] is a reference to a live Java [byte[]]; a pointer is the
    address of a native view handed out by the JVM.  A C pointer that may be
    [NULL] is an [option]. *)
Abbreviation jbyteArray := nat (only parsing).
Abbreviation pointer := nat (only parsing).
Abbreviation jsize := Z (only parsing).
Abbreviation jboolean := bool (only parsing).
Definition JNI_TRUE : jboolean := true.
Definition JNI_FALSE : jboolean := false.

(** Release modes of [jni.h].  The header is not part of the repository; the
    values are the ones every JNI implementation uses. *)
Definition JNI_COMMIT : Z := 1.
Definition JNI_ABORT : Z := 2.

(** The interface of libsecp256k1 that the bindings consume.  Parsing
    functions return their [int] status together with the contents of the
    out-parameter; verification functions return their [int] status;
    [context_create] returns [NULL] when it cannot allocate.  The flag
    [SECP256K1_CONTEXT_VERIFY] is a constant of [secp256k1.h]. *)
Class Secp256k1 := {
  secp256k1_context : Type;
  secp256k1_pubkey : Type;
  secp256k1_ecdsa_signature : Type;
  secp256k1_xonly_pubkey : Type;
  SECP256K1_CONTEXT_VERIFY : Z;
  context_create : Z -> option secp256k1_context;
  ec_pubkey_parse :
    secp256k1_context -> list byte -> Z * secp256k1_pubkey;
  ecdsa_signature_parse_compact :
    secp256k1_context -> list byte -> Z * secp256k1_ecdsa_signature;
  ecdsa_verify :
    secp256k1_context -> secp256k1_ecdsa_signature -> list byte ->
    secp256k1_pubkey -> Z;
  xonly_pubkey_parse :
    secp256k1_context -> list byte -> Z * secp256k1_xonly_pubkey;
  schnorrsig_verify :
    secp256k1_context -> list byte -> list byte ->
    secp256k1_xonly_pubkey -> Z
}.

(** Calls made to the collaborators, in program order. *)
Inductive Event :=
| EvPthreadOnce
| EvContextCreate (flags : Z)
| EvGetArrayLength (a : jbyteArray)
| EvGetByteArrayElements (a : jbyteArray) (p : option pointer)
| EvReleaseByteArrayElements (a : jbyteArray) (p : option pointer) (mode : Z)
| EvPubkeyParse (input : list byte) (rc : Z)
| EvSignatureParseCompact (input : list byte) (rc : Z)
| EvEcdsaVerify (msghash : list byte) (rc : Z)
| EvXonlyPubkeyParse (input : list byte) (rc : Z)
| EvSchnorrsigVerify (sig msg : list byte) (rc : Z).

Inductive pthread_once_t := PTHREAD_ONCE_INIT | PTHREAD_ONCE_DONE.

Section Bindings.
Context {lib : Secp256k1}.

(** The state of the process as far as the bindings can see it: the two
    statics of the C file, the Java heap, the native views currently handed
    out, the outcome of the coming view allocations ([true]: the JVM cannot
    provide the view and returns [NULL]) and the trace. *)
Record Process := mkProcess {
  ctx : option secp256k1_context;
  ctx_init_once : pthread_once_t;
  heap : jbyteArray -> list byte;
  views : gmap pointer (jbyteArray * list byte);
  oom : list bool;
  trace : list Event
}.

Definition set_ctx (c : option secp256k1_context) (s : Process) : Process :=
  mkProcess c (ctx_init_once s) (heap s) (views s) (oom s) (trace s).
Definition set_once (o : pthread_once_t) (s : Process) : Process :=
  mkProcess (ctx s) o (heap s) (views s) (oom s) (trace s).
Definition set_heap (h : jbyteArray -> list byte) (s : Process) : Process :=
  mkProcess (ctx s) (ctx_init_once s) h (views s) (oom s) (trace s).
Definition set_views (v : gmap pointer (jbyteArray * list byte))
    (s : Process) : Process :=
  mkProcess (ctx s) (ctx_init_once s) (heap s) v (oom s) (trace s).
Definition set_oom (o : list bool) (s : Process) : Process :=
  mkProcess (ctx s) (ctx_init_once s) (heap s) (views s) o (trace s).
Definition log (e : Event) (s : Process) : Process :=
  mkProcess (ctx s) (ctx_init_once s) (heap s) (views s) (oom s)
    (trace s ++ [e]).

Definition store (a : jbyteArray) (bs : list byte)
    (h : jbyteArray -> list byte) : jbyteArray -> list byte :=
  fun x => if Nat.eqb x a then bs else h x.

(** ** The monad of native code

    A computation either returns a value and a new state, or faults: it
    used a pointer it does not hold.  A fault stands for undefined behaviour
    of the C program. *)
Inductive Result (A : Type) :=
| Ok (a : A) (s : Process)
| Fault.
Arguments Ok {A} a s.
Arguments Fault {A}.

Definition M (A : Type) : Type := Process -> Result A.

Definition retM {A} (a : A) : M A := fun s => Ok a s.
Definition bindM {A B} (m : M A) (k : A -> M B) : M B :=
  fun s => match m s with
           | Ok a s' => k a s'
           | Fault => Fault
           end.

Notation "x <- m ;; k" := (bindM m (fun x => k))
  (at level 100, m at next level, right associativity).
Notation "m ;;; k" := (bindM m (fun _ => k))
  (at level 100, right associativity).

(** ** pthread_once and the context *)

(** [init_context]: [ctx = secp256k1_context_create(SECP256K1_CONTEXT_VERIFY)]. *)
Definition init_context : M unit := fun s =>
  Ok tt (set_ctx (context_create SECP256K1_CONTEXT_VERIFY)
           (log (EvContextCreate SECP256K1_CONTEXT_VERIFY) s)).

(** [pthread_once] as one thread sees it: the routine runs if the control is
    still [PTHREAD_ONCE_INIT], and the control is done afterwards. *)
Definition pthread_once (init_routine : M unit) : M unit := fun s =>
  let s0 := log EvPthreadOnce s in
  match ctx_init_once s0 with
  | PTHREAD_ONCE_INIT =>
      match init_routine s0 with
      | Ok _ s1 => Ok tt (set_once PTHREAD_ONCE_DONE s1)
      | Fault => Fault
      end
  | PTHREAD_ONCE_DONE => Ok tt s0
  end.

Definition get_context : M (option secp256k1_context) :=
  pthread_once init_context ;;;
  fun s => Ok (ctx s) s.

(** [secp256k1_init_context]: the pointer returned to Java is the context. *)
Definition Java_scalus_crypto_Secp256k1Context_secp256k1_init_context
  : M (option secp256k1_context) :=
  context <- get_context ;;
  retM context.

(** ** JNI functions *)

(** A Java array has at most [2^31 - 1] elements, so [jsize] holds its
    length exactly. *)
Definition GetArrayLength (a : jbyteArray) : M jsize := fun s =>
  Ok (Z.of_nat (length (heap s a))) (log (EvGetArrayLength a) s).

(** The view is a copy of the array at a fresh address, or [NULL]. *)
Definition GetByteArrayElements (a : jbyteArray) : M (option pointer) :=
  fun s =>
    match oom s with
    | true :: rest =>
        Ok None (log (EvGetByteArrayElements a None) (set_oom rest s))
    | _ =>
        let p := fresh (dom (views s)) in
        Ok (Some p)
          (log (EvGetByteArrayElements a (Some p))
             (set_views (<[p := (a, heap s a)]> (views s))
                (set_oom (tail (oom s)) s)))
    end.

(** Mode [0] copies the view back and frees it, [JNI_COMMIT] copies back and
    keeps it, [JNI_ABORT] frees it without copying back.  Releasing [NULL],
    a view that is not held or a view of another array is a fault. *)
Definition ReleaseByteArrayElements (a : jbyteArray) (p : option pointer)
    (mode : Z) : M unit := fun s =>
  match p with
  | None => Fault
  | Some q =>
      match views s !! q with
      | Some (a', bs) =>
          if Nat.eqb a' a then
            let s1 := if (mode =? JNI_ABORT)%Z then s
                      else set_heap (store a bs (heap s)) s in
            let s2 := if (mode =? JNI_COMMIT)%Z then s1
                      else set_views (delete q (views s1)) s1 in
            Ok tt (log (EvReleaseByteArrayElements a p mode) s2)
          else Fault
      | None => Fault
      end
  end.

(** ** Calls into libsecp256k1

    The library reads its inputs through the pointers it is given: [n] bytes
    from a view that is held and has at least [n] bytes.  Where the C call
    passes no length the library reads the size its interface fixes: 64
    bytes of a compact or Schnorr signature, 32 of a digest, 32 of an
    x-only key. *)
Definition load (p : option pointer) (n : nat) : M (list byte) := fun s =>
  match p with
  | None => Fault
  | Some q =>
      match views s !! q with
      | Some (_, bs) =>
          if (n <=? length bs)%nat then Ok (take n bs) s else Fault
      | None => Fault
      end
  end.

Definition emit (e : Event) : M unit := fun s => Ok tt (log e s).

Definition secp256k1_ec_pubkey_parse (c : secp256k1_context)
    (input : option pointer) (inputlen : Z) : M (Z * secp256k1_pubkey) :=
  bs <- load input (Z.to_nat inputlen) ;;
  emit (EvPubkeyParse bs (ec_pubkey_parse c bs).1) ;;;
  retM (ec_pubkey_parse c bs).

Definition secp256k1_ecdsa_signature_parse_compact (c : secp256k1_context)
    (input64 : option pointer) : M (Z * secp256k1_ecdsa_signature) :=
  bs <- load input64 64 ;;
  emit (EvSignatureParseCompact bs (ecdsa_signature_parse_compact c bs).1) ;;;
  retM (ecdsa_signature_parse_compact c bs).

Definition secp256k1_ecdsa_verify (c : secp256k1_context)
    (sig : secp256k1_ecdsa_signature) (msghash32 : option pointer)
    (pubkey : secp256k1_pubkey) : M Z :=
  bs <- load msghash32 32 ;;
  emit (EvEcdsaVerify bs (ecdsa_verify c sig bs pubkey)) ;;;
  retM (ecdsa_verify c sig bs pubkey).

Definition secp256k1_xonly_pubkey_parse (c : secp256k1_context)
    (input32 : option pointer) : M (Z * secp256k1_xonly_pubkey) :=
  bs <- load input32 32 ;;
  emit (EvXonlyPubkeyParse bs (xonly_pubkey_parse c bs).1) ;;;
  retM (xonly_pubkey_parse c bs).

Definition secp256k1_schnorrsig_verify (c : secp256k1_context)
    (sig64 msg : option pointer) (msglen : Z)
    (pubkey : secp256k1_xonly_pubkey) : M Z :=
  sg <- load sig64 64 ;;
  ms <- load msg (Z.to_nat msglen) ;;
  emit (EvSchnorrsigVerify sg ms (schnorrsig_verify c sg ms pubkey)) ;;;
  retM (schnorrsig_verify c sg ms pubkey).

(** ** The three entry points *)

Definition is_null (p : option pointer) : bool :=
  match p with None => true | Some _ => false end.

(** C's short-circuit [||] on conditions that make calls. *)
Definition orM (a b : M bool) : M bool :=
  x <- a ;; if x then retM true else b.

Definition length_differs (a : jbyteArray) (n : Z) : M bool :=
  l <- GetArrayLength a ;; retM (negb (l =? n)%Z).

(** [if (p) ReleaseByteArrayElements(env, a, p, JNI_ABORT);] *)
Definition release_if_held (a : jbyteArray) (p : option pointer) : M unit :=
  if is_null p then retM tt else ReleaseByteArrayElements a p JNI_ABORT.

Definition Java_scalus_crypto_NativeSecp256k1_isValidPubKey
    (pubKey : jbyteArray) : M jboolean :=
  context <- get_context ;;
  match context with
  | None => retM JNI_FALSE
  | Some context =>
      pubkey_len <- GetArrayLength pubKey ;;
      if negb (pubkey_len =? 33)%Z && negb (pubkey_len =? 65)%Z
      then retM JNI_FALSE
      else
        pubkey_bytes <- GetByteArrayElements pubKey ;;
        if is_null pubkey_bytes then retM JNI_FALSE
        else
          parsed <- secp256k1_ec_pubkey_parse context pubkey_bytes
                      pubkey_len ;;
          let result := parsed.1 in
          ReleaseByteArrayElements pubKey pubkey_bytes JNI_ABORT ;;;
          retM (if (result =? 1)%Z then JNI_TRUE else JNI_FALSE)
  end.

Definition Java_scalus_crypto_NativeSecp256k1_ecdsaVerify
    (msg32 sig64 pubKey33 : jbyteArray) : M jboolean :=
  context <- get_context ;;
  match context with
  | None => retM JNI_FALSE
  | Some context =>
      bad <- orM (length_differs msg32 32)
               (orM (length_differs sig64 64) (length_differs pubKey33 33)) ;;
      if bad then retM JNI_FALSE
      else
        msg_bytes <- GetByteArrayElements msg32 ;;
        sig_bytes <- GetByteArrayElements sig64 ;;
        pubkey_bytes <- GetByteArrayElements pubKey33 ;;
        if is_null msg_bytes || is_null sig_bytes || is_null pubkey_bytes
        then
          release_if_held msg32 msg_bytes ;;;
          release_if_held sig64 sig_bytes ;;;
          release_if_held pubKey33 pubkey_bytes ;;;
          retM JNI_FALSE
        else
          (* everything up to the label [cleanup], [result] starting at 0 *)
          result <-
            (pk <- secp256k1_ec_pubkey_parse context pubkey_bytes 33 ;;
             if negb (pk.1 =? 1)%Z then retM 0%Z
             else
               sg <- secp256k1_ecdsa_signature_parse_compact context
                       sig_bytes ;;
               if negb (sg.1 =? 1)%Z then retM 0%Z
               else secp256k1_ecdsa_verify context sg.2 msg_bytes pk.2) ;;
          (* cleanup: *)
          ReleaseByteArrayElements msg32 msg_bytes JNI_ABORT ;;;
          ReleaseByteArrayElements sig64 sig_bytes JNI_ABORT ;;;
          ReleaseByteArrayElements pubKey33 pubkey_bytes JNI_ABORT ;;;
          retM (if (result =? 1)%Z then JNI_TRUE else JNI_FALSE)
  end.

Definition Java_scalus_crypto_NativeSecp256k1_schnorrVerify
    (sig64 msg pubKey32 : jbyteArray) : M jboolean :=
  context <- get_context ;;
  match context with
  | None => retM JNI_FALSE
  | Some context =>
      bad <- orM (length_differs sig64 64) (length_differs pubKey32 32) ;;
      if bad then retM JNI_FALSE
      else
        msg_len <- GetArrayLength msg ;;
        sig_bytes <- GetByteArrayElements sig64 ;;
        msg_bytes <- GetByteArrayElements msg ;;
        pubkey_bytes <- GetByteArrayElements pubKey32 ;;
        if is_null sig_bytes || is_null msg_bytes || is_null pubkey_bytes
        then
          release_if_held sig64 sig_bytes ;;;
          release_if_held msg msg_bytes ;;;
          release_if_held pubKey32 pubkey_bytes ;;;
          retM JNI_FALSE
        else
          result <-
            (xo <- secp256k1_xonly_pubkey_parse context pubkey_bytes ;;
             if negb (xo.1 =? 1)%Z then retM 0%Z
             else secp256k1_schnorrsig_verify context sig_bytes msg_bytes
                    msg_len xo.2) ;;
          (* cleanup: *)
          ReleaseByteArrayElements sig64 sig_bytes JNI_ABORT ;;;
          ReleaseByteArrayElements msg msg_bytes JNI_ABORT ;;;
          ReleaseByteArrayElements pubKey32 pubkey_bytes JNI_ABORT ;;;
          retM (if (result =? 1)%Z then JNI_TRUE else JNI_FALSE)
  end.

End Bindings.

Arguments Ok {lib A} a s.
Arguments Fault {lib A}.

(** ** Observations on a call *)

Section Observations.
Context {lib : Secp256k1}.

(** The context [get_context] returns in state [s], and the calls it makes
    to get it. *)
Definition context_in (s : Process) : option secp256k1_context :=
  match ctx_init_once s with
  | PTHREAD_ONCE_INIT => context_create SECP256K1_CONTEXT_VERIFY
  | PTHREAD_ONCE_DONE => ctx s
  end.

Definition context_events (s : Process) : list Event :=
  match ctx_init_once s with
  | PTHREAD_ONCE_INIT =>
      [EvPthreadOnce; EvContextCreate SECP256K1_CONTEXT_VERIFY]
  | PTHREAD_ONCE_DONE => [EvPthreadOnce]
  end.

(** Whether the next view allocation returns [NULL]. *)
Definition alloc_fails (om : list bool) : bool :=
  match om with
  | true :: _ => true
  | _ => false
  end.

(** The release of a view that was acquired, nothing for [NULL]. *)
Definition released (a : jbyteArray) (p : option pointer) : list Event :=
  match p with
  | Some _ => [EvReleaseByteArrayElements a p JNI_ABORT]
  | None => []
  end.

(** The pointers among [ps] that are not [NULL]. *)
Definition held (ps : list (option pointer)) : list pointer := omap id ps.

(** What a call leaves behind: the context manager has run, the Java heap
    and the set of views handed out are as before, and [evs] are the calls
    made after [get_context]. *)
Definition returns_to (s s' : Process) (evs : list Event) : Prop :=
  ctx s' = context_in s /\
  ctx_init_once s' = PTHREAD_ONCE_DONE /\
  heap s' = heap s /\
  views s' = views s /\
  trace s' = trace s ++ context_events s ++ evs.

(** The exit paths of [isValidPubKey], each with its result and the calls
    made after [get_context]. *)
Inductive isValidPubKey_path (s : Process) (pubKey : jbyteArray)
  : jboolean -> list Event -> Prop :=
| valid_no_context :
    context_in s = None ->
    isValidPubKey_path s pubKey JNI_FALSE []
| valid_wrong_length c :
    context_in s = Some c ->
    length (heap s pubKey) <> 33 -> length (heap s pubKey) <> 65 ->
    isValidPubKey_path s pubKey JNI_FALSE [EvGetArrayLength pubKey]
| valid_no_view c :
    context_in s = Some c ->
    length (heap s pubKey) = 33 \/ length (heap s pubKey) = 65 ->
    alloc_fails (oom s) = true ->
    isValidPubKey_path s pubKey JNI_FALSE
      [EvGetArrayLength pubKey; EvGetByteArrayElements pubKey None]
| valid_parsed c p :
    context_in s = Some c ->
    length (heap s pubKey) = 33 \/ length (heap s pubKey) = 65 ->
    alloc_fails (oom s) = false ->
    views s !! p = None ->
    isValidPubKey_path s pubKey
      ((ec_pubkey_parse c (heap s pubKey)).1 =? 1)%Z
      [EvGetArrayLength pubKey;
       EvGetByteArrayElements pubKey (Some p);
       EvPubkeyParse (heap s pubKey) (ec_pubkey_parse c (heap s pubKey)).1;
       EvReleaseByteArrayElements pubKey (Some p) JNI_ABORT].

(** Pointers returned by three successive calls of [GetByteArrayElements]
    in a state with views [v] and allocation outcomes [om]: [NULL] exactly
    where the allocation fails, otherwise distinct addresses not in use. *)
Definition acquired (v : gmap nat (nat * list byte)) (om : list bool)
    (p1 p2 p3 : option pointer) : Prop :=
  is_null p1 = alloc_fails om /\
  is_null p2 = alloc_fails (tail om) /\
  is_null p3 = alloc_fails (tail (tail om)) /\
  NoDup (held [p1; p2; p3]) /\
  (forall q, q ∈ held [p1; p2; p3] -> v !! q = None).

(** The views after [GetByteArrayElements] on [a] returned [p]. *)
Definition insert_view (h : nat -> list byte) (a : jbyteArray)
    (p : option pointer) (v : gmap nat (nat * list byte))
  : gmap nat (nat * list byte) :=
  match p with
  | Some q => <[q := (a, h a)]> v
  | None => v
  end.

Definition any_null (p1 p2 p3 : option pointer) : bool :=
  is_null p1 || is_null p2 || is_null p3.

(** The exit paths of [ecdsaVerify]. *)
Inductive ecdsaVerify_path (s : Process) (msg32 sig64 pubKey33 : jbyteArray)
  : jboolean -> list Event -> Prop :=
| ecdsa_no_context :
    context_in s = None ->
    ecdsaVerify_path s msg32 sig64 pubKey33 JNI_FALSE []
| ecdsa_wrong_msg_length c :
    context_in s = Some c ->
    length (heap s msg32) <> 32 ->
    ecdsaVerify_path s msg32 sig64 pubKey33 JNI_FALSE
      [EvGetArrayLength msg32]
| ecdsa_wrong_sig_length c :
    context_in s = Some c ->
    length (heap s msg32) = 32 ->
    length (heap s sig64) <> 64 ->
    ecdsaVerify_path s msg32 sig64 pubKey33 JNI_FALSE
      [EvGetArrayLength msg32; EvGetArrayLength sig64]
| ecdsa_wrong_pubkey_length c :
    context_in s = Some c ->
    length (heap s msg32) = 32 ->
    length (heap s sig64) = 64 ->
    length (heap s pubKey33) <> 33 ->
    ecdsaVerify_path s msg32 sig64 pubKey33 JNI_FALSE
      [EvGetArrayLength msg32; EvGetArrayLength sig64;
       EvGetArrayLength pubKey33]
| ecdsa_no_view c p1 p2 p3 :
    context_in s = Some c ->
    length (heap s msg32) = 32 ->
    length (heap s sig64) = 64 ->
    length (heap s pubKey33) = 33 ->
    acquired (views s) (oom s) p1 p2 p3 ->
    any_null p1 p2 p3 = true ->
    ecdsaVerify_path s msg32 sig64 pubKey33 JNI_FALSE
      ([EvGetArrayLength msg32; EvGetArrayLength sig64;
        EvGetArrayLength pubKey33;
        EvGetByteArrayElements msg32 p1;
        EvGetByteArrayElements sig64 p2;
        EvGetByteArrayElements pubKey33 p3]
       ++ released msg32 p1 ++ released sig64 p2 ++ released pubKey33 p3)
| ecdsa_pubkey_rejected c p1 p2 p3 :
    context_in s = Some c ->
    length (heap s msg32) = 32 ->
    length (heap s sig64) = 64 ->
    length (heap s pubKey33) = 33 ->
    acquired (views s) (oom s) p1 p2 p3 ->
    any_null p1 p2 p3 = false ->
    (ec_pubkey_parse c (heap s pubKey33)).1 <> 1%Z ->
    ecdsaVerify_path s msg32 sig64 pubKey33 JNI_FALSE
      ([EvGetArrayLength msg32; EvGetArrayLength sig64;
        EvGetArrayLength pubKey33;
        EvGetByteArrayElements msg32 p1;
        EvGetByteArrayElements sig64 p2;
        EvGetByteArrayElements pubKey33 p3;
        EvPubkeyParse (heap s pubKey33)
          (ec_pubkey_parse c (heap s pubKey33)).1]
       ++ released msg32 p1 ++ released sig64 p2 ++ released pubKey33 p3)
| ecdsa_signature_rejected c p1 p2 p3 :
    context_in s = Some c ->
    length (heap s msg32) = 32 ->
    length (heap s sig64) = 64 ->
    length (heap s pubKey33) = 33 ->
    acquired (views s) (oom s) p1 p2 p3 ->
    any_null p1 p2 p3 = false ->
    (ec_pubkey_parse c (heap s pubKey33)).1 = 1%Z ->
    (ecdsa_signature_parse_compact c (heap s sig64)).1 <> 1%Z ->
    ecdsaVerify_path s msg32 sig64 pubKey33 JNI_FALSE
      ([EvGetArrayLength msg32; EvGetArrayLength sig64;
        EvGetArrayLength pubKey33;
        EvGetByteArrayElements msg32 p1;
        EvGetByteArrayElements sig64 p2;
        EvGetByteArrayElements pubKey33 p3;
        EvPubkeyParse (heap s pubKey33)
          (ec_pubkey_parse c (heap s pubKey33)).1;
        EvSignatureParseCompact (heap s sig64)
          (ecdsa_signature_parse_compact c (heap s sig64)).1]
       ++ released msg32 p1 ++ released sig64 p2 ++ released pubKey33 p3)
| ecdsa_verified c p1 p2 p3 :
    context_in s = Some c ->
    length (heap s msg32) = 32 ->
    length (heap s sig64) = 64 ->
    length (heap s pubKey33) = 33 ->
    acquired (views s) (oom s) p1 p2 p3 ->
    any_null p1 p2 p3 = false ->
    (ec_pubkey_parse c (heap s pubKey33)).1 = 1%Z ->
    (ecdsa_signature_parse_compact c (heap s sig64)).1 = 1%Z ->
    let rc := ecdsa_verify c
                (ecdsa_signature_parse_compact c (heap s sig64)).2
                (heap s msg32)
                (ec_pubkey_parse c (heap s pubKey33)).2 in
    ecdsaVerify_path s msg32 sig64 pubKey33 (rc =? 1)%Z
      ([EvGetArrayLength msg32; EvGetArrayLength sig64;
        EvGetArrayLength pubKey33;
        EvGetByteArrayElements msg32 p1;
        EvGetByteArrayElements sig64 p2;
        EvGetByteArrayElements pubKey33 p3;
        EvPubkeyParse (heap s pubKey33)
          (ec_pubkey_parse c (heap s pubKey33)).1;
        EvSignatureParseCompact (heap s sig64)
          (ecdsa_signature_parse_compact c (heap s sig64)).1;
        EvEcdsaVerify (heap s msg32) rc]
       ++ released msg32 p1 ++ released sig64 p2 ++ released pubKey33 p3).

(** The exit paths of [schnorrVerify]. *)
Inductive schnorrVerify_path (s : Process) (sig64 msg pubKey32 : jbyteArray)
  : jboolean -> list Event -> Prop :=
| schnorr_no_context :
    context_in s = None ->
    schnorrVerify_path s sig64 msg pubKey32 JNI_FALSE []
| schnorr_wrong_sig_length c :
    context_in s = Some c ->
    length (heap s sig64) <> 64 ->
    schnorrVerify_path s sig64 msg pubKey32 JNI_FALSE
      [EvGetArrayLength sig64]
| schnorr_wrong_pubkey_length c :
    context_in s = Some c ->
    length (heap s sig64) = 64 ->
    length (heap s pubKey32) <> 32 ->
    schnorrVerify_path s sig64 msg pubKey32 JNI_FALSE
      [EvGetArrayLength sig64; EvGetArrayLength pubKey32]
| schnorr_no_view c p1 p2 p3 :
    context_in s = Some c ->
    length (heap s sig64) = 64 ->
    length (heap s pubKey32) = 32 ->
    acquired (views s) (oom s) p1 p2 p3 ->
    any_null p1 p2 p3 = true ->
    schnorrVerify_path s sig64 msg pubKey32 JNI_FALSE
      ([EvGetArrayLength sig64; EvGetArrayLength pubKey32;
        EvGetArrayLength msg;
        EvGetByteArrayElements sig64 p1;
        EvGetByteArrayElements msg p2;
        EvGetByteArrayElements pubKey32 p3]
       ++ released sig64 p1 ++ released msg p2 ++ released pubKey32 p3)
| schnorr_pubkey_rejected c p1 p2 p3 :
    context_in s = Some c ->
    length (heap s sig64) = 64 ->
    length (heap s pubKey32) = 32 ->
    acquired (views s) (oom s) p1 p2 p3 ->
    any_null p1 p2 p3 = false ->
    (xonly_pubkey_parse c (heap s pubKey32)).1 <> 1%Z ->
    schnorrVerify_path s sig64 msg pubKey32 JNI_FALSE
      ([EvGetArrayLength sig64; EvGetArrayLength pubKey32;
        EvGetArrayLength msg;
        EvGetByteArrayElements sig64 p1;
        EvGetByteArrayElements msg p2;
        EvGetByteArrayElements pubKey32 p3;
        EvXonlyPubkeyParse (heap s pubKey32)
          (xonly_pubkey_parse c (heap s pubKey32)).1]
       ++ released sig64 p1 ++ released msg p2 ++ released pubKey32 p3)
| schnorr_verified c p1 p2 p3 :
    context_in s = Some c ->
    length (heap s sig64) = 64 ->
    length (heap s pubKey32) = 32 ->
    acquired (views s) (oom s) p1 p2 p3 ->
    any_null p1 p2 p3 = false ->
    (xonly_pubkey_parse c (heap s pubKey32)).1 = 1%Z ->
    let rc := schnorrsig_verify c (heap s sig64) (heap s msg)
                (xonly_pubkey_parse c (heap s pubKey32)).2 in
    schnorrVerify_path s sig64 msg pubKey32 (rc =? 1)%Z
      ([EvGetArrayLength sig64; EvGetArrayLength pubKey32;
        EvGetArrayLength msg;
        EvGetByteArrayElements sig64 p1;
        EvGetByteArrayElements msg p2;
        EvGetByteArrayElements pubKey32 p3;
        EvXonlyPubkeyParse (heap s pubKey32)
          (xonly_pubkey_parse c (heap s pubKey32)).1;
        EvSchnorrsigVerify (heap s sig64) (heap s msg) rc]
       ++ released sig64 p1 ++ released msg p2 ++ released pubKey32 p3).

(** The result and the trace of a run, for statements on concrete runs. *)
Definition value {A} (r : Result A) : option A :=
  match r with
  | Ok a _ => Some a
  | Fault => None
  end.

Definition final {A} (r : Result A) : option Process :=
  match r with
  | Ok _ s => Some s
  | Fault => None
  end.

(** The next [n] view allocations all succeed. *)
Fixpoint allocs_ok (n : nat) (om : list bool) : bool :=
  match n with
  | O => true
  | S n' => negb (alloc_fails om) && allocs_ok n' (tail om)
  end.

(** The outcomes of the next [n] view allocations. *)
Fixpoint outcomes (n : nat) (om : list bool) : list bool :=
  match n with
  | O => []
  | S n' => alloc_fails om :: outcomes n' (tail om)
  end.

(** When each operation answers true. *)
Definition pubkey_accepted (s : Process) (pubKey : jbyteArray) : Prop :=
  exists cx,
    context_in s = Some cx /\
    allocs_ok 1 (oom s) = true /\
    (length (heap s pubKey) = 33 \/ length (heap s pubKey) = 65) /\
    (ec_pubkey_parse cx (heap s pubKey)).1 = 1%Z.

Definition ecdsa_accepted (s : Process) (msg32 sig64 pubKey33 : jbyteArray)
  : Prop :=
  exists cx,
    context_in s = Some cx /\
    allocs_ok 3 (oom s) = true /\
    length (heap s msg32) = 32 /\
    length (heap s sig64) = 64 /\
    length (heap s pubKey33) = 33 /\
    (ec_pubkey_parse cx (heap s pubKey33)).1 = 1%Z /\
    (ecdsa_signature_parse_compact cx (heap s sig64)).1 = 1%Z /\
    ecdsa_verify cx
      (ecdsa_signature_parse_compact cx (heap s sig64)).2
      (heap s msg32)
      (ec_pubkey_parse cx (heap s pubKey33)).2 = 1%Z.

Definition schnorr_accepted (s : Process) (sig64 msg pubKey32 : jbyteArray)
  : Prop :=
  exists cx,
    context_in s = Some cx /\
    allocs_ok 3 (oom s) = true /\
    length (heap s sig64) = 64 /\
    length (heap s pubKey32) = 32 /\
    (xonly_pubkey_parse cx (heap s pubKey32)).1 = 1%Z /\
    schnorrsig_verify cx (heap s sig64) (heap s msg)
      (xonly_pubkey_parse cx (heap s pubKey32)).2 = 1%Z.

(** Classes of calls. *)
Definition is_context_call (e : Event) : bool :=
  match e with
  | EvPthreadOnce | EvContextCreate _ => true
  | _ => false
  end.

Definition is_view_call (e : Event) : bool :=
  match e with
  | EvGetByteArrayElements _ _ | EvReleaseByteArrayElements _ _ _ => true
  | _ => false
  end.

Definition is_parse (e : Event) : bool :=
  match e with
  | EvPubkeyParse _ _ | EvSignatureParseCompact _ _
  | EvXonlyPubkeyParse _ _ => true
  | _ => false
  end.

Definition is_verification (e : Event) : bool :=
  match e with
  | EvEcdsaVerify _ _ | EvSchnorrsigVerify _ _ _ => true
  | _ => false
  end.

Definition is_library_call (e : Event) : bool :=
  is_parse e || is_verification e.

Definition is_length_read (e : Event) : bool :=
  match e with
  | EvGetArrayLength _ => true
  | _ => false
  end.

Definition is_signature_parse (e : Event) : bool :=
  match e with
  | EvSignatureParseCompact _ _ => true
  | _ => false
  end.

(** A release that cannot write to the Java array. *)
Definition discards (e : Event) : bool :=
  match e with
  | EvReleaseByteArrayElements _ _ mode => (mode =? JNI_ABORT)%Z
  | _ => true
  end.

(** The view discipline on a trace.  [hs] lists the views held, each with
    its array.  An acquisition must return an address that is not held; a
    release must name a view that is held, with its own array, and frees it
    unless the mode is [JNI_COMMIT]; at the end nothing is held. *)
Fixpoint holder (p : pointer) (hs : list (nat * nat)) : option jbyteArray :=
  match hs with
  | [] => None
  | (q, a) :: r => if Nat.eqb q p then Some a else holder p r
  end.

Fixpoint drop_view (p : pointer) (hs : list (nat * nat)) : list (nat * nat) :=
  match hs with
  | [] => []
  | (q, a) :: r => if Nat.eqb q p then r else (q, a) :: drop_view p r
  end.

Fixpoint balanced_from (hs : list (nat * nat)) (evs : list Event) : bool :=
  match evs with
  | [] => match hs with [] => true | _ => false end
  | EvGetByteArrayElements a (Some p) :: r =>
      match holder p hs with
      | Some _ => false
      | None => balanced_from ((p, a) :: hs) r
      end
  | EvReleaseByteArrayElements a (Some p) mode :: r =>
      match holder p hs with
      | Some a' =>
          Nat.eqb a' a &&
          balanced_from
            (if (mode =? JNI_COMMIT)%Z then hs else drop_view p hs) r
      | None => false
      end
  | EvReleaseByteArrayElements _ None _ :: _ => false
  | _ :: r => balanced_from hs r
  end.

Definition balanced (evs : list Event) : bool := balanced_from [] evs.

End Observations.

(** ** A stand-in for libsecp256k1

    The library is a parameter of the development.  Statements on concrete
    runs need one that computes; this one keeps the shape of the real
    interface (status [1] on success, [0] otherwise) with toy acceptance
    rules: a public key is accepted on its tag byte and length, a compact
    signature on its length, an x-only key on its length and first byte
    (not [0xff]), an ECDSA signature when it
    is the digest followed by the key's x bytes, a Schnorr signature when it
    is the key followed by the zero-padded head of the message. *)
Module TestDouble.

Definition well_tagged (bs : list byte) : bool :=
  match bs with
  | x02 :: _ | x03 :: _ => Nat.eqb (length bs) 33
  | x04 :: _ => Nat.eqb (length bs) 65
  | _ => false
  end.

Fixpoint bytes_eqb (a b : list byte) : bool :=
  match a, b with
  | [], [] => true
  | x :: a', y :: b' => Byte.eqb x y && bytes_eqb a' b'
  | _, _ => false
  end.

Definition status (b : bool) : Z := if b then 1%Z else 0%Z.

Definition in_field (bs : list byte) : bool :=
  match bs with
  | xff :: _ => false
  | _ => true
  end.

Definition pad32 (m : list byte) : list byte :=
  take 32 (m ++ replicate 32 x00).

Definition library (create_ok : bool) : Secp256k1 := {|
  secp256k1_context := unit;
  secp256k1_pubkey := list byte;
  secp256k1_ecdsa_signature := list byte;
  secp256k1_xonly_pubkey := list byte;
  SECP256K1_CONTEXT_VERIFY := 257;
  context_create := fun _ => if create_ok then Some tt else None;
  ec_pubkey_parse := fun _ bs => (status (well_tagged bs), bs);
  ecdsa_signature_parse_compact :=
    fun _ bs => (status (Nat.eqb (length bs) 64), bs);
  ecdsa_verify :=
    fun _ sg m pk => status (bytes_eqb sg (m ++ tail pk));
  xonly_pubkey_parse :=
    fun _ bs => (status (Nat.eqb (length bs) 32 && in_field bs), bs);
  schnorrsig_verify :=
    fun _ sg m pk => status (bytes_eqb sg (pk ++ pad32 m))
|}.

(** Arrays of the Java heap used in the examples: reference [0] is a
    32-byte digest, [1] an ECDSA signature of it under key [2], [2] a
    compressed key, [3] the x-only form of that key, [4] a two-byte message,
    [5] a Schnorr signature of [4] under [3], [6] 33 bytes with a tag that
    is not one of a compressed key, [8] 32 bytes [0xff]; every other
    reference is an empty array. *)
Definition digest : list byte := replicate 32 xaa.
Definition key33 : list byte := x02 :: replicate 32 x11.
Definition ecdsa_sig : list byte := digest ++ tail key33.
Definition key32 : list byte := replicate 32 x11.
Definition message : list byte := [x68; x69].
Definition schnorr_sig : list byte := key32 ++ pad32 message.
Definition untagged33 : list byte := x05 :: replicate 32 x11.

Definition arrays (a : jbyteArray) : list byte :=
  match a with
  | 0 => digest
  | 1 => ecdsa_sig
  | 2 => key33
  | 3 => key32
  | 4 => message
  | 5 => schnorr_sig
  | 6 => untagged33
  | 8 => replicate 32 xff
  | _ => []
  end.

(** A process that has not yet called [get_context], holding no view, in
    which the coming view allocations have the outcomes [om]. *)
Definition fresh_process (create_ok : bool) (om : list bool)
  : @Process (library create_ok) :=
  @mkProcess (library create_ok) None PTHREAD_ONCE_INIT arrays ∅ om [].

(** The same process after a first call of [get_context]. *)
Definition ready_process (om : list bool) : @Process (library true) :=
  @mkProcess (library true) (Some tt) PTHREAD_ONCE_DONE arrays ∅ om [].

End TestDouble.

(** ** Sequences of calls

    What a Java caller does with the bindings: it calls the four native
    methods, one after the other, in any order. *)

Section Calls.
Context {lib : Secp256k1}.

Inductive Call :=
| CallInitContext
| CallIsValidPubKey (pubKey : jbyteArray)
| CallEcdsaVerify (msg32 sig64 pubKey33 : jbyteArray)
| CallSchnorrVerify (sig64 msg pubKey32 : jbyteArray).

(** What a call answers: the context handle, or a boolean. *)
Inductive Answer :=
| Handle (c : option secp256k1_context)
| Verdict (b : bool).

Definition invoke (c : Call) : M Answer :=
  match c with
  | CallInitContext =>
      bindM Java_scalus_crypto_Secp256k1Context_secp256k1_init_context
        (fun h => retM (Handle h))
  | CallIsValidPubKey a =>
      bindM (Java_scalus_crypto_NativeSecp256k1_isValidPubKey a)
        (fun b => retM (Verdict b))
  | CallEcdsaVerify m sg pk =>
      bindM (Java_scalus_crypto_NativeSecp256k1_ecdsaVerify m sg pk)
        (fun b => retM (Verdict b))
  | CallSchnorrVerify sg m pk =>
      bindM (Java_scalus_crypto_NativeSecp256k1_schnorrVerify sg m pk)
        (fun b => retM (Verdict b))
  end.

Fixpoint run_calls (cs : list Call) : M (list Answer) :=
  match cs with
  | [] => retM []
  | c :: rest =>
      bindM (invoke c)
        (fun x => bindM (run_calls rest) (fun xs => retM (x :: xs)))
  end.

(** Counting calls in a trace. *)
Definition is_construction (e : Event) : bool :=
  match e with
  | EvContextCreate _ => true
  | _ => false
  end.


Definition count (f : Event -> bool) (evs : list Event) : nat :=
  length (filter (fun e => f e) evs).

(** The phases of an entry point: context, lengths, views, library,
    releases. *)
Definition phase (e : Event) : nat :=
  match e with
  | EvPthreadOnce | EvContextCreate _ => 0
  | EvGetArrayLength _ => 1
  | EvGetByteArrayElements _ _ => 2
  | EvPubkeyParse _ _ | EvSignatureParseCompact _ _ | EvEcdsaVerify _ _
  | EvXonlyPubkeyParse _ _ | EvSchnorrsigVerify _ _ _ => 3
  | EvReleaseByteArrayElements _ _ _ => 4
  end.

Fixpoint ascending (l : list nat) : bool :=
  match l with
  | x :: ((y :: _) as r) => (x <=? y)%nat && ascending r
  | _ => true
  end.

(** What the library may be handed in a call of each entry point: the whole
    content of the array of that argument, of the length of its kind. *)
Definition pubkey_input (s : Process) (pubKey : jbyteArray) (e : Event)
  : Prop :=
  match e with
  | EvPubkeyParse i _ =>
      i = heap s pubKey /\ (length i = 33 \/ length i = 65)
  | EvSignatureParseCompact _ _ | EvEcdsaVerify _ _
  | EvXonlyPubkeyParse _ _ | EvSchnorrsigVerify _ _ _ => False
  | _ => True
  end.

Definition ecdsa_input (s : Process) (msg32 sig64 pubKey33 : jbyteArray)
    (e : Event) : Prop :=
  match e with
  | EvPubkeyParse i _ => i = heap s pubKey33 /\ length i = 33
  | EvSignatureParseCompact i _ => i = heap s sig64 /\ length i = 64
  | EvEcdsaVerify m _ => m = heap s msg32 /\ length m = 32
  | EvXonlyPubkeyParse _ _ | EvSchnorrsigVerify _ _ _ => False
  | _ => True
  end.

Definition schnorr_input (s : Process) (sig64 msg pubKey32 : jbyteArray)
    (e : Event) : Prop :=
  match e with
  | EvXonlyPubkeyParse i _ => i = heap s pubKey32 /\ length i = 32
  | EvSchnorrsigVerify sg m _ =>
      sg = heap s sig64 /\ length sg = 64 /\ m = heap s msg
  | EvPubkeyParse _ _ | EvSignatureParseCompact _ _ | EvEcdsaVerify _ _ =>
      False
  | _ => True
  end.

End Calls.

(** ** The views a call asks for *)

Section Requests.
Context {lib : Secp256k1}.

(** The number of views an entry point requests in state [s]: all of its
    views when there is a context and the lengths it checks are right,
    none otherwise. *)
Definition pubkey_requests (s : Process) (pubKey : jbyteArray) : nat :=
  match context_in s with
  | Some _ =>
      if (length (heap s pubKey) =? 33) || (length (heap s pubKey) =? 65)
      then 1 else 0
  | None => 0
  end.

Definition ecdsa_requests (s : Process) (msg32 sig64 pubKey33 : jbyteArray)
  : nat :=
  match context_in s with
  | Some _ =>
      if (length (heap s msg32) =? 32) && (length (heap s sig64) =? 64)
         && (length (heap s pubKey33) =? 33)
      then 3 else 0
  | None => 0
  end.

Definition schnorr_requests (s : Process) (sig64 msg pubKey32 : jbyteArray)
  : nat :=
  match context_in s with
  | Some _ =>
      if (length (heap s sig64) =? 64) && (length (heap s pubKey32) =? 32)
      then 3 else 0
  | None => 0
  end.

End Requests.

(** ** Array references that may be null

    A [jbyteArray] argument is a reference, and Java may pass null.  The C
    functions test none of their array arguments: each goes as it is to
    [GetArrayLength], [GetByteArrayElements] and
    [ReleaseByteArrayElements], for which a null array is undefined.  Here
    the entry points are embedded once more, on references that may be null
    ([None]); on references that are not null they are the entry points
    above. *)
Module Nullable.
Section References.
Context {lib : Secp256k1}.

Notation "x <- m ;; k" := (bindM m (fun x => k))
  (at level 100, m at next level, right associativity).
Notation "m ;;; k" := (bindM m (fun _ => k))
  (at level 100, right associativity).

Definition GetArrayLength (array : option nat) : M jsize :=
  match array with
  | Some a => GetArrayLength a
  | None => fun _ => Fault
  end.

Definition GetByteArrayElements (array : option nat) : M (option pointer) :=
  match array with
  | Some a => GetByteArrayElements a
  | None => fun _ => Fault
  end.

Definition ReleaseByteArrayElements (array : option nat)
    (elems : option pointer) (mode : Z) : M unit :=
  match array with
  | Some a => ReleaseByteArrayElements a elems mode
  | None => fun _ => Fault
  end.

Definition length_differs (a : option nat) (n : Z) : M bool :=
  l <- GetArrayLength a ;; retM (negb (l =? n)%Z).

Definition release_if_held (a : option nat) (p : option pointer) : M unit :=
  if is_null p then retM tt else ReleaseByteArrayElements a p JNI_ABORT.

Definition Java_scalus_crypto_NativeSecp256k1_isValidPubKey
    (pubKey : option nat) : M jboolean :=
  context <- get_context ;;
  match context with
  | None => retM JNI_FALSE
  | Some context =>
      pubkey_len <- GetArrayLength pubKey ;;
      if negb (pubkey_len =? 33)%Z && negb (pubkey_len =? 65)%Z
      then retM JNI_FALSE
      else
        pubkey_bytes <- GetByteArrayElements pubKey ;;
        if is_null pubkey_bytes then retM JNI_FALSE
        else
          parsed <- secp256k1_ec_pubkey_parse context pubkey_bytes
                      pubkey_len ;;
          let result := parsed.1 in
          ReleaseByteArrayElements pubKey pubkey_bytes JNI_ABORT ;;;
          retM (if (result =? 1)%Z then JNI_TRUE else JNI_FALSE)
  end.

Definition Java_scalus_crypto_NativeSecp256k1_ecdsaVerify
    (msg32 sig64 pubKey33 : option nat) : M jboolean :=
  context <- get_context ;;
  match context with
  | None => retM JNI_FALSE
  | Some context =>
      bad <- orM (length_differs msg32 32)
               (orM (length_differs sig64 64) (length_differs pubKey33 33)) ;;
      if bad then retM JNI_FALSE
      else
        msg_bytes <- GetByteArrayElements msg32 ;;
        sig_bytes <- GetByteArrayElements sig64 ;;
        pubkey_bytes <- GetByteArrayElements pubKey33 ;;
        if is_null msg_bytes || is_null sig_bytes || is_null pubkey_bytes
        then
          release_if_held msg32 msg_bytes ;;;
          release_if_held sig64 sig_bytes ;;;
          release_if_held pubKey33 pubkey_bytes ;;;
          retM JNI_FALSE
        else
          result <-
            (pk <- secp256k1_ec_pubkey_parse context pubkey_bytes 33 ;;
             if negb (pk.1 =? 1)%Z then retM 0%Z
             else
               sg <- secp256k1_ecdsa_signature_parse_compact context
                       sig_bytes ;;
               if negb (sg.1 =? 1)%Z then retM 0%Z
               else secp256k1_ecdsa_verify context sg.2 msg_bytes pk.2) ;;
          ReleaseByteArrayElements msg32 msg_bytes JNI_ABORT ;;;
          ReleaseByteArrayElements sig64 sig_bytes JNI_ABORT ;;;
          ReleaseByteArrayElements pubKey33 pubkey_bytes JNI_ABORT ;;;
          retM (if (result =? 1)%Z then JNI_TRUE else JNI_FALSE)
  end.

Definition Java_scalus_crypto_NativeSecp256k1_schnorrVerify
    (sig64 msg pubKey32 : option nat) : M jboolean :=
  context <- get_context ;;
  match context with
  | None => retM JNI_FALSE
  | Some context =>
      bad <- orM (length_differs sig64 64) (length_differs pubKey32 32) ;;
      if bad then retM JNI_FALSE
      else
        msg_len <- GetArrayLength msg ;;
        sig_bytes <- GetByteArrayElements sig64 ;;
        msg_bytes <- GetByteArrayElements msg ;;
        pubkey_bytes <- GetByteArrayElements pubKey32 ;;
        if is_null sig_bytes || is_null msg_bytes || is_null pubkey_bytes
        then
          release_if_held sig64 sig_bytes ;;;
          release_if_held msg msg_bytes ;;;
          release_if_held pubKey32 pubkey_bytes ;;;
          retM JNI_FALSE
        else
          result <-
            (xo <- secp256k1_xonly_pubkey_parse context pubkey_bytes ;;
             if negb (xo.1 =? 1)%Z then retM 0%Z
             else secp256k1_schnorrsig_verify context sig_bytes msg_bytes
                    msg_len xo.2) ;;
          ReleaseByteArrayElements sig64 sig_bytes JNI_ABORT ;;;
          ReleaseByteArrayElements msg msg_bytes JNI_ABORT ;;;
          ReleaseByteArrayElements pubKey32 pubkey_bytes JNI_ABORT ;;;
          retM (if (result =? 1)%Z then JNI_TRUE else JNI_FALSE)
  end.

(** Whether a call hands a null array to [GetArrayLength]: there is a
    context, and the null argument is the first one read or every argument
    read before it has the right length. *)
Definition isValidPubKey_reads_null (s : Process) (pubKey : option nat)
  : bool :=
  match context_in s with
  | Some _ => is_null pubKey
  | None => false
  end.

Definition ecdsaVerify_reads_null (s : Process)
    (msg32 sig64 pubKey33 : option nat) : bool :=
  match context_in s, msg32 with
  | None, _ => false
  | Some _, None => true
  | Some _, Some m =>
      (length (heap s m) =? 32) &&
      match sig64 with
      | None => true
      | Some sg => (length (heap s sg) =? 64) && is_null pubKey33
      end
  end.

Definition schnorrVerify_reads_null (s : Process)
    (sig64 msg pubKey32 : option nat) : bool :=
  match context_in s, sig64 with
  | None, _ => false
  | Some _, None => true
  | Some _, Some sg =>
      (length (heap s sg) =? 64) &&
      match pubKey32 with
      | None => true
      | Some pk => (length (heap s pk) =? 32) && is_null msg
      end
  end.

End References.
End Nullable.

(** ** Concurrent first use of the context

    Threads call [get_context] on one shared [Process], their atomic steps
    interleaved.  A call is cut where the C code calls out: entering
    [pthread_once], the routine [init_context], the return of
    [pthread_once], the read of [ctx].  The routine is the embedded
    [init_context] and the steps write the shared state as the sequential
    [pthread_once] does.  What POSIX adds for several threads is the
    arbitration: the first caller that finds the control untouched runs the
    routine, a caller that arrives while it runs waits, and [pthread_once]
    returns only once the routine has completed.  The thread that runs the
    routine is kept in a ghost field. *)
Module Concurrent.
Section Threads.
Context {lib : Secp256k1}.

(** Where a thread stands. *)
Inductive pc :=
| Idle                (* outside get_context *)
| AtOnce              (* called get_context, about to enter pthread_once *)
| InInit              (* inside pthread_once, about to run init_context *)
| InitReturned        (* init_context returned, pthread_once has not *)
| AfterOnce           (* pthread_once returned, about to read ctx *)
| Returned (c : option secp256k1_context).

Record Config := mkConfig {
  shared : Process;
  runner : option nat;
  threads : list pc
}.

(** One step of thread [i], or [None] when it waits. *)
Definition step_thread (i : nat) (sh : Process) (r : option nat) (t : pc)
  : option (Process * option nat * pc) :=
  match t with
  | Idle => Some (sh, r, AtOnce)
  | AtOnce =>
      match ctx_init_once sh, r with
      | PTHREAD_ONCE_DONE, _ => Some (log EvPthreadOnce sh, r, AfterOnce)
      | PTHREAD_ONCE_INIT, None => Some (log EvPthreadOnce sh, Some i, InInit)
      | PTHREAD_ONCE_INIT, Some _ => None
      end
  | InInit =>
      match init_context sh with
      | Ok _ sh' => Some (sh', r, InitReturned)
      | Fault => None
      end
  | InitReturned => Some (set_once PTHREAD_ONCE_DONE sh, None, AfterOnce)
  | AfterOnce => Some (sh, r, Returned (ctx sh))
  | Returned _ => Some (sh, r, Idle)
  end.

Definition step (i : nat) (cf : Config) : Config :=
  match threads cf !! i with
  | Some t =>
      match step_thread i (shared cf) (runner cf) t with
      | Some (sh, r, t') => mkConfig sh r (<[i := t']> (threads cf))
      | None => cf
      end
  | None => cf
  end.

(** A schedule names the thread that moves at each step. *)
Definition run (sched : list nat) (cf : Config) : Config :=
  fold_left (fun c i => step i c) sched cf.

(** [n] threads, none of them in [get_context], on the process [p]. *)
Definition initial (n : nat) (p : Process) : Config :=
  mkConfig p None (replicate n Idle).

Definition in_routine (t : pc) : bool :=
  match t with
  | InInit | InitReturned => true
  | _ => false
  end.

Definition past_once (t : pc) : bool :=
  match t with
  | AfterOnce | Returned _ => true
  | _ => false
  end.

(** The shared trace extends that of [p0] by calls of which [k] are
    constructions. *)
Definition constructed (p0 sh : Process) (k : nat) : Prop :=
  exists evs,
    trace sh = trace p0 ++ evs /\ count is_construction evs = k.

Definition thread_ok (p0 : Process) (cf : Config) (i : nat) (t : pc)
  : Prop :=
  match t with
  | Idle | AtOnce => True
  | InInit =>
      ctx_init_once (shared cf) = PTHREAD_ONCE_INIT /\
      runner cf = Some i /\
      constructed p0 (shared cf) 0
  | InitReturned =>
      ctx_init_once (shared cf) = PTHREAD_ONCE_INIT /\
      runner cf = Some i /\
      constructed p0 (shared cf) 1 /\
      ctx (shared cf) = context_create SECP256K1_CONTEXT_VERIFY
  | AfterOnce => ctx_init_once (shared cf) = PTHREAD_ONCE_DONE
  | Returned c =>
      ctx_init_once (shared cf) = PTHREAD_ONCE_DONE /\ c = context_in p0
  end.

Definition shared_ok (p0 : Process) (cf : Config) : Prop :=
  match ctx_init_once (shared cf) with
  | PTHREAD_ONCE_INIT =>
      ctx_init_once p0 = PTHREAD_ONCE_INIT /\
      (runner cf = None -> constructed p0 (shared cf) 0) /\
      exists k, k <= 1 /\ constructed p0 (shared cf) k
  | PTHREAD_ONCE_DONE =>
      ctx (shared cf) = context_in p0 /\
      constructed p0 (shared cf)
        (count is_construction (context_events p0))
  end.

Definition invariant (p0 : Process) (cf : Config) : Prop :=
  shared_ok p0 cf /\
  forall i t, threads cf !! i = Some t -> thread_ok p0 cf i t.

(** [m] calls of [get_context] by one thread, one after the other. *)
Fixpoint get_context_times (m : nat)
  : M (list (option secp256k1_context)) :=
  match m with
  | O => retM []
  | S m' =>
      bindM get_context (fun c =>
      bindM (get_context_times m') (fun cs => retM (c :: cs)))
  end.

(** The shared process is one that calls of [get_context] one after the
    other produce, or it is inside the first of them. *)
Definition linear (p0 : Process) (cf : Config) : Prop :=
  match runner cf with
  | None =>
      match ctx_init_once (shared cf) with
      | PTHREAD_ONCE_INIT => shared cf = p0
      | PTHREAD_ONCE_DONE =>
          exists m,
            get_context_times m p0 =
            Ok (replicate m (context_in p0)) (shared cf)
      end
  | Some i =>
      ctx_init_once p0 = PTHREAD_ONCE_INIT /\
      (threads cf !! i = Some InInit /\
       shared cf = log EvPthreadOnce p0 \/
       threads cf !! i = Some InitReturned /\
       init_context (log EvPthreadOnce p0) = Ok tt (shared cf))
  end.

End Threads.
End Concurrent.

(** ** Running the code, step by step *)

Section Execution.
Context {lib : Secp256k1}.

Ltac norm :=
  cbv [set_ctx set_once set_heap set_views set_oom log
       ctx ctx_init_once heap views oom trace];
  rewrite <- ?app_assoc; cbn [app].

Lemma bind_ok {A B} (m : M A) (k : A -> M B) s a s' :
  m s = Ok a s' -> bindM m k s = k a s'.
Proof. unfold bindM. intros ->. reflexivity. Qed.

Lemma bind_bind {A B C} (m : M A) (f : A -> M B) (g : B -> M C) s :
  bindM (bindM m f) g s = bindM m (fun x => bindM (f x) g) s.
Proof. unfold bindM. destruct (m s); reflexivity. Qed.

Lemma bind_ret {A B} (a : A) (k : A -> M B) s : bindM (retM a) k s = k a s.
Proof. reflexivity. Qed.

Lemma bind_emit {B} e (k : unit -> M B) c o h v om tr :
  bindM (emit e) k (mkProcess c o h v om tr) =
  k tt (mkProcess c o h v om (tr ++ [e])).
Proof. reflexivity. Qed.

Lemma get_context_eq c o h v om tr :
  let s := mkProcess c o h v om tr in
  get_context s =
  Ok (context_in s)
     (mkProcess (context_in s) PTHREAD_ONCE_DONE h v om
        (tr ++ context_events s)).
Proof.
  destruct o; cbn; [|reflexivity].
  norm. reflexivity.
Qed.

Lemma GetArrayLength_eq a c o h v om tr :
  GetArrayLength a (mkProcess c o h v om tr) =
  Ok (Z.of_nat (length (h a)))
     (mkProcess c o h v om (tr ++ [EvGetArrayLength a])).
Proof. reflexivity. Qed.

Lemma GetByteArrayElements_null a c o h v om tr :
  alloc_fails om = true ->
  GetByteArrayElements a (mkProcess c o h v om tr) =
  Ok None (mkProcess c o h v (tail om)
             (tr ++ [EvGetByteArrayElements a None])).
Proof. destruct om as [|[] om]; cbn; intros; norm; congruence. Qed.

Lemma GetByteArrayElements_view a c o h v om tr :
  alloc_fails om = false ->
  let p := fresh (dom v) in
  GetByteArrayElements a (mkProcess c o h v om tr) =
  Ok (Some p) (mkProcess c o h (<[p := (a, h a)]> v) (tail om)
                 (tr ++ [EvGetByteArrayElements a (Some p)])).
Proof. destruct om as [|[] om]; cbn; intros; norm; congruence. Qed.

Lemma load_eq q n a bs c o h (v : gmap pointer (jbyteArray * list byte))
    om tr :
  v !! q = Some (a, bs) -> (n <= length bs)%nat ->
  load (Some q) n (mkProcess c o h v om tr) =
  Ok (take n bs) (mkProcess c o h v om tr).
Proof.
  intros Hq Hn. unfold load. cbn [views].
  rewrite Hq.
  destruct (Nat.leb_spec n (length bs)); [reflexivity | lia].
Qed.

Lemma Release_abort_eq a q bs c o h
    (v : gmap pointer (jbyteArray * list byte)) om tr :
  v !! q = Some (a, bs) ->
  ReleaseByteArrayElements a (Some q) JNI_ABORT (mkProcess c o h v om tr) =
  Ok tt (mkProcess c o h (delete q v) om
           (tr ++ [EvReleaseByteArrayElements a (Some q) JNI_ABORT])).
Proof.
  intros Hq. unfold ReleaseByteArrayElements. cbn [views].
  rewrite Hq.
  rewrite Nat.eqb_refl. cbn [Z.eqb JNI_ABORT JNI_COMMIT Pos.eqb]. norm.
  reflexivity.
Qed.

Lemma fresh_view (v : gmap nat (nat * list byte)) :
  v !! fresh (dom v) = None.
Proof. apply not_elem_of_dom. apply is_fresh. Qed.

Lemma if_bool_id (b : bool) : (if b then JNI_TRUE else JNI_FALSE) = b.
Proof. destruct b; reflexivity. Qed.

Lemma isValidPubKey_run pubKey s :
  exists b s' evs,
    Java_scalus_crypto_NativeSecp256k1_isValidPubKey pubKey s = Ok b s' /\
    returns_to s s' evs /\
    isValidPubKey_path s pubKey b evs.
Proof.
  destruct s as [c o h v om tr].
  unfold Java_scalus_crypto_NativeSecp256k1_isValidPubKey.
  rewrite (bind_ok _ _ _ _ _ (get_context_eq c o h v om tr)).
  set (s := mkProcess c o h v om tr).
  destruct (context_in s) as [cx|] eqn:Hc.
  - rewrite (bind_ok _ _ _ _ _ (GetArrayLength_eq _ _ _ _ _ _ _)).
    destruct (negb (Z.of_nat (length (h pubKey)) =? 33)%Z &&
              negb (Z.of_nat (length (h pubKey)) =? 65)%Z) eqn:Hlen.
    + apply andb_true_iff in Hlen as [H33 H65].
      apply negb_true_iff, Z.eqb_neq in H33, H65.
      eexists _, _, _. split; [reflexivity|]. split.
      * unfold returns_to; cbn. rewrite Hc.
        rewrite <- app_assoc. auto.
      * eapply valid_wrong_length; [exact Hc | cbn; lia | cbn; lia].
    + assert (Hl : length (h pubKey) = 33 \/ length (h pubKey) = 65).
      { apply andb_false_iff in Hlen as [H|H];
          apply negb_false_iff, Z.eqb_eq in H; lia. }
      destruct (alloc_fails om) eqn:Hom.
      * rewrite (bind_ok _ _ _ _ _
                   (GetByteArrayElements_null _ _ _ _ _ _ _ Hom)).
        cbn [is_null].
        eexists _, _, _. split; [reflexivity|]. split.
        -- unfold returns_to; cbn. rewrite Hc.
           rewrite <- !app_assoc. auto.
        -- eapply valid_no_view; eauto.
      * rewrite (bind_ok _ _ _ _ _
                   (GetByteArrayElements_view _ _ _ _ _ _ _ Hom)).
        cbn [is_null].
        set (p := fresh (dom v)).
        assert (Hp : (<[p := (pubKey, h pubKey)]> v) !! p
                     = Some (pubKey, h pubKey))
          by apply lookup_insert_eq.
        unfold secp256k1_ec_pubkey_parse.
        assert (Hn : (Z.to_nat (Z.of_nat (length (h pubKey)))
                      <= length (h pubKey))%nat) by lia.
        rewrite !bind_bind.
        rewrite (bind_ok _ _ _ _ _ (load_eq _ _ _ _ _ _ _ _ _ _ Hp Hn)).
        rewrite Nat2Z.id, firstn_all.
        rewrite bind_bind, bind_emit, bind_ret.
        rewrite (bind_ok _ _ _ _ _ (Release_abort_eq _ _ _ _ _ _ _ _ _ Hp)).
        rewrite if_bool_id.
        eexists _, _, _. split; [reflexivity|]. split.
        -- unfold returns_to; cbn. rewrite Hc.
           rewrite <- !app_assoc. cbn [app].
           repeat split; try reflexivity.
           apply delete_insert_id, fresh_view.
        -- eapply valid_parsed; eauto. apply fresh_view.
  - eexists _, _, _. split; [reflexivity|]. split.
    + unfold returns_to; cbn. rewrite Hc, app_nil_r. auto.
    + apply valid_no_context. exact Hc.
Qed.

Lemma acquire1 {B} a (k : option nat -> M B) c o h v om tr :
  exists p,
    bindM (GetByteArrayElements a) k (mkProcess c o h v om tr) =
    k p (mkProcess c o h (insert_view h a p v) (tail om)
           (tr ++ [EvGetByteArrayElements a p])) /\
    is_null p = alloc_fails om /\
    (forall q, p = Some q -> v !! q = None).
Proof.
  destruct (alloc_fails om) eqn:Hom.
  - exists None. split; [|split; [reflexivity | discriminate]].
    apply bind_ok, GetByteArrayElements_null, Hom.
  - exists (Some (fresh (dom v))). split; [|split; [reflexivity|]].
    + apply bind_ok. apply (GetByteArrayElements_view _ _ _ _ _ _ _ Hom).
    + intros q [= <-]. apply fresh_view.
Qed.

Lemma acquired_intro h a1 a2 (v : gmap nat (nat * list byte)) om p1 p2 p3 :
  is_null p1 = alloc_fails om ->
  is_null p2 = alloc_fails (tail om) ->
  is_null p3 = alloc_fails (tail (tail om)) ->
  (forall q, p1 = Some q -> v !! q = None) ->
  (forall q, p2 = Some q -> insert_view h a1 p1 v !! q = None) ->
  (forall q, p3 = Some q ->
     insert_view h a2 p2 (insert_view h a1 p1 v) !! q = None) ->
  acquired v om p1 p2 p3.
Proof.
  intros H1 H2 H3 F1 F2 F3. unfold acquired.
  repeat (split; [assumption|]).
  clear H1 H2 H3.
  destruct p1 as [q1|], p2 as [q2|], p3 as [q3|];
    cbn [insert_view held omap id] in *;
    try (pose proof (F1 _ eq_refl) as G1);
    try (pose proof (F2 _ eq_refl) as G2);
    try (pose proof (F3 _ eq_refl) as G3);
    clear F1 F2 F3;
    rewrite ?lookup_insert_None in *;
    repeat match goal with
           | G : _ /\ _ |- _ => destruct G
           end;
    (split;
     [ repeat (apply NoDup_cons_2;
               [repeat (apply not_elem_of_cons; split; [congruence|]);
                apply not_elem_of_nil|]);
       apply NoDup_nil_2
     | intros q Hq;
       repeat (apply elem_of_cons in Hq as [->|Hq]; [assumption|]);
       apply elem_of_nil in Hq; contradiction ]).
Qed.

Ltac map_lookup :=
  rewrite ?lookup_delete, ?lookup_insert;
  repeat (case_decide; subst; try congruence); try reflexivity.

Lemma release3 {B} a1 a2 a3 p1 p2 p3 (k : M B) c o h
    (v : gmap nat (nat * list byte)) om tr :
  NoDup (held [p1; p2; p3]) ->
  (forall q, q ∈ held [p1; p2; p3] -> v !! q = None) ->
  bindM (release_if_held a1 p1)
    (fun _ => bindM (release_if_held a2 p2)
       (fun _ => bindM (release_if_held a3 p3) (fun _ => k)))
    (mkProcess c o h
       (insert_view h a3 p3 (insert_view h a2 p2 (insert_view h a1 p1 v)))
       om tr) =
  k (mkProcess c o h v om
       (tr ++ released a1 p1 ++ released a2 p2 ++ released a3 p3)).
Proof.
  intros Hnd Hfr.
  destruct p1 as [q1|], p2 as [q2|], p3 as [q3|];
    cbn [release_if_held is_null insert_view released held omap] in *;
    cbn in Hnd, Hfr;
    repeat match goal with
           | H : NoDup (_ :: _) |- _ => apply NoDup_cons in H as [? ?]
           end;
    repeat match goal with
           | H : _ ∉ _ :: _ |- _ => apply not_elem_of_cons in H as [? ?]
           end;
    repeat first
      [ rewrite bind_ret
      | erewrite bind_ok; [| eapply Release_abort_eq; map_lookup] ];
    rewrite <- ?app_assoc; cbn [app];
    rewrite ?app_nil_r;
    f_equal; f_equal; try reflexivity;
    apply map_eq; intros i; map_lookup;
    symmetry; apply Hfr; set_solver.
Qed.

Lemma release3_held {B} a1 a2 a3 q1 q2 q3 (k : M B) c o h
    (v : gmap nat (nat * list byte)) om tr :
  NoDup [q1; q2; q3] ->
  (forall q, q ∈ [q1; q2; q3] -> v !! q = None) ->
  bindM (ReleaseByteArrayElements a1 (Some q1) JNI_ABORT)
    (fun _ => bindM (ReleaseByteArrayElements a2 (Some q2) JNI_ABORT)
       (fun _ => bindM (ReleaseByteArrayElements a3 (Some q3) JNI_ABORT)
          (fun _ => k)))
    (mkProcess c o h
       (<[q3 := (a3, h a3)]> (<[q2 := (a2, h a2)]> (<[q1 := (a1, h a1)]> v)))
       om tr) =
  k (mkProcess c o h v om
       (tr ++ released a1 (Some q1) ++ released a2 (Some q2)
           ++ released a3 (Some q3))).
Proof.
  intros Hnd Hfr.
  exact (release3 a1 a2 a3 (Some q1) (Some q2) (Some q3) k c o h v om tr
           Hnd Hfr).
Qed.

(** The library calls, on views that are held and long enough. *)
Lemma load_all q (n : nat) a bs c o h (v : gmap nat (nat * list byte))
    om tr :
  v !! q = Some (a, bs) -> length bs = n ->
  load (Some q) n (mkProcess c o h v om tr) =
  Ok bs (mkProcess c o h v om tr).
Proof.
  intros Hq Hn. rewrite (load_eq q n a bs) by (auto; lia).
  rewrite firstn_all2 by lia. reflexivity.
Qed.

Lemma pubkey_parse_eq {B} cx q n a bs (K : _ -> M B) c o h
    (v : gmap nat (nat * list byte)) om tr :
  v !! q = Some (a, bs) -> length bs = Z.to_nat n ->
  bindM (secp256k1_ec_pubkey_parse cx (Some q) n) K
    (mkProcess c o h v om tr) =
  K (ec_pubkey_parse cx bs)
    (mkProcess c o h v om
       (tr ++ [EvPubkeyParse bs (ec_pubkey_parse cx bs).1])).
Proof.
  intros Hq Hn. unfold secp256k1_ec_pubkey_parse.
  rewrite !bind_bind, (bind_ok _ _ _ _ _ (load_all _ _ _ _ _ _ _ _ _ _ Hq Hn)).
  reflexivity.
Qed.

Lemma signature_parse_eq {B} cx q a bs (K : _ -> M B) c o h
    (v : gmap nat (nat * list byte)) om tr :
  v !! q = Some (a, bs) -> length bs = 64 ->
  bindM (secp256k1_ecdsa_signature_parse_compact cx (Some q)) K
    (mkProcess c o h v om tr) =
  K (ecdsa_signature_parse_compact cx bs)
    (mkProcess c o h v om
       (tr ++ [EvSignatureParseCompact bs
                 (ecdsa_signature_parse_compact cx bs).1])).
Proof.
  intros Hq Hn. unfold secp256k1_ecdsa_signature_parse_compact.
  rewrite !bind_bind, (bind_ok _ _ _ _ _ (load_all _ _ _ _ _ _ _ _ _ _ Hq Hn)).
  reflexivity.
Qed.

Lemma ecdsa_verify_eq {B} cx sg pk q a bs (K : _ -> M B) c o h
    (v : gmap nat (nat * list byte)) om tr :
  v !! q = Some (a, bs) -> length bs = 32 ->
  bindM (secp256k1_ecdsa_verify cx sg (Some q) pk) K
    (mkProcess c o h v om tr) =
  K (ecdsa_verify cx sg bs pk)
    (mkProcess c o h v om
       (tr ++ [EvEcdsaVerify bs (ecdsa_verify cx sg bs pk)])).
Proof.
  intros Hq Hn. unfold secp256k1_ecdsa_verify.
  rewrite !bind_bind, (bind_ok _ _ _ _ _ (load_all _ _ _ _ _ _ _ _ _ _ Hq Hn)).
  reflexivity.
Qed.

Lemma xonly_parse_eq {B} cx q a bs (K : _ -> M B) c o h
    (v : gmap nat (nat * list byte)) om tr :
  v !! q = Some (a, bs) -> length bs = 32 ->
  bindM (secp256k1_xonly_pubkey_parse cx (Some q)) K
    (mkProcess c o h v om tr) =
  K (xonly_pubkey_parse cx bs)
    (mkProcess c o h v om
       (tr ++ [EvXonlyPubkeyParse bs (xonly_pubkey_parse cx bs).1])).
Proof.
  intros Hq Hn. unfold secp256k1_xonly_pubkey_parse.
  rewrite !bind_bind, (bind_ok _ _ _ _ _ (load_all _ _ _ _ _ _ _ _ _ _ Hq Hn)).
  reflexivity.
Qed.

Lemma schnorrsig_verify_eq {B} cx pk q1 a1 sg q2 a2 ms n (K : _ -> M B)
    c o h (v : gmap nat (nat * list byte)) om tr :
  v !! q1 = Some (a1, sg) -> length sg = 64 ->
  v !! q2 = Some (a2, ms) -> length ms = Z.to_nat n ->
  bindM (secp256k1_schnorrsig_verify cx (Some q1) (Some q2) n pk) K
    (mkProcess c o h v om tr) =
  K (schnorrsig_verify cx sg ms pk)
    (mkProcess c o h v om
       (tr ++ [EvSchnorrsigVerify sg ms (schnorrsig_verify cx sg ms pk)])).
Proof.
  intros Hq1 Hn1 Hq2 Hn2. unfold secp256k1_schnorrsig_verify.
  rewrite !bind_bind,
    (bind_ok _ _ _ _ _ (load_all _ _ _ _ _ _ _ _ _ _ Hq1 Hn1)).
  cbv beta. rewrite !bind_bind.
  rewrite (bind_ok _ _ _ _ _ (load_all _ _ _ _ _ _ _ _ _ _ Hq2 Hn2)).
  reflexivity.
Qed.

Ltac step :=
  first
    [ rewrite bind_bind
    | rewrite bind_ret
    | rewrite (bind_ok _ _ _ _ _ (GetArrayLength_eq _ _ _ _ _ _ _)) ];
  cbv beta.

Ltac acquire p Hn Hf :=
  match goal with
  | |- context [bindM (GetByteArrayElements ?a) ?k
                  (mkProcess ?c ?o ?h ?v ?om ?tr)] =>
      let Heq := fresh "Heq" in
      destruct (acquire1 a k c o h v om tr) as (p & Heq & Hn & Hf);
      rewrite Heq; clear Heq; cbv beta
  end.

(** The facts on three views that were all acquired. *)
Lemma acquired_all (v : gmap nat (nat * list byte)) om q1 q2 q3 :
  acquired v om (Some q1) (Some q2) (Some q3) ->
  NoDup [q1; q2; q3] /\ (forall q, q ∈ [q1; q2; q3] -> v !! q = None) /\
  q1 <> q2 /\ q1 <> q3 /\ q2 <> q3.
Proof.
  intros (_ & _ & _ & Hnd & Hfr). cbn in Hnd, Hfr.
  repeat split; try assumption;
    apply NoDup_cons in Hnd as [H1 Hnd];
    apply NoDup_cons in Hnd as [H2 _]; set_solver.
Qed.

Ltac finish_run :=
  eexists _, _, _; split; [reflexivity|]; split;
  [ unfold returns_to; cbn [ctx ctx_init_once heap views trace];
    rewrite <- ?app_assoc; cbn [app]; auto | ].

Lemma ecdsaVerify_run msg32 sig64 pubKey33 s :
  exists b s' evs,
    Java_scalus_crypto_NativeSecp256k1_ecdsaVerify msg32 sig64 pubKey33 s
    = Ok b s' /\
    returns_to s s' evs /\
    ecdsaVerify_path s msg32 sig64 pubKey33 b evs.
Proof.
  destruct s as [c o h v om tr].
  unfold Java_scalus_crypto_NativeSecp256k1_ecdsaVerify.
  rewrite (bind_ok _ _ _ _ _ (get_context_eq c o h v om tr)).
  set (s := mkProcess c o h v om tr).
  destruct (context_in s) as [cx|] eqn:Hc.
  2:{ finish_run.
      - rewrite app_nil_r. auto.
      - apply ecdsa_no_context. exact Hc. }
  unfold orM, length_differs. repeat step.
  destruct (Z.eqb_spec (Z.of_nat (length (h msg32))) 32) as [L1|L1];
    cbn [negb].
  2:{ repeat step. finish_run.
      eapply ecdsa_wrong_msg_length; [exact Hc | cbn; lia]. }
  repeat step.
  destruct (Z.eqb_spec (Z.of_nat (length (h sig64))) 64) as [L2|L2];
    cbn [negb].
  2:{ repeat step. finish_run.
      eapply ecdsa_wrong_sig_length; [exact Hc | cbn; lia | cbn; lia]. }
  repeat step.
  destruct (Z.eqb_spec (Z.of_nat (length (h pubKey33))) 33) as [L3|L3];
    cbn [negb].
  2:{ repeat step. finish_run.
      eapply ecdsa_wrong_pubkey_length;
        [exact Hc | cbn; lia | cbn; lia | cbn; lia]. }
  repeat step.
  acquire p1 N1 F1. acquire p2 N2 F2. acquire p3 N3 F3.
  pose proof (acquired_intro _ _ _ _ _ _ _ _ N1 N2 N3 F1 F2 F3) as Hacq.
  change (is_null p1 || is_null p2 || is_null p3)
    with (any_null p1 p2 p3).
  destruct (any_null p1 p2 p3) eqn:Hnull.
  - destruct Hacq as (A1 & A2 & A3 & Hnd & Hfr).
    rewrite (release3 _ _ _ _ _ _ _ _ _ _ _ _ _ Hnd Hfr).
    finish_run.
    eapply (ecdsa_no_view s msg32 sig64 pubKey33 cx p1 p2 p3);
      try exact Hc; try (cbn; lia); try exact Hnull.
    unfold acquired; auto.
  - destruct p1 as [q1|], p2 as [q2|], p3 as [q3|]; try discriminate.
    cbn [insert_view].
    destruct (acquired_all _ _ _ _ _ Hacq) as (Hnd & Hfr & D12 & D13 & D23).
    assert (V3 : (<[q3 := (pubKey33, h pubKey33)]>
                    (<[q2 := (sig64, h sig64)]>
                       (<[q1 := (msg32, h msg32)]> v))) !! q3
                 = Some (pubKey33, h pubKey33)) by map_lookup.
    assert (V2 : (<[q3 := (pubKey33, h pubKey33)]>
                    (<[q2 := (sig64, h sig64)]>
                       (<[q1 := (msg32, h msg32)]> v))) !! q2
                 = Some (sig64, h sig64)) by map_lookup.
    assert (V1 : (<[q3 := (pubKey33, h pubKey33)]>
                    (<[q2 := (sig64, h sig64)]>
                       (<[q1 := (msg32, h msg32)]> v))) !! q1
                 = Some (msg32, h msg32)) by map_lookup.
    rewrite bind_bind.
    rewrite (pubkey_parse_eq _ _ _ _ _ _ _ _ _ _ _ _ V3) by lia.
    destruct (Z.eqb_spec (ec_pubkey_parse cx (h pubKey33)).1 1) as [P|P];
      cbn [negb].
    2:{ rewrite bind_ret.
        rewrite (release3_held _ _ _ _ _ _ _ _ _ _ _ _ _ Hnd Hfr).
        finish_run.
        eapply (ecdsa_pubkey_rejected s msg32 sig64 pubKey33 cx
                  (Some q1) (Some q2) (Some q3));
          try exact Hc; try (cbn; lia); try exact Hacq; auto. }
    rewrite bind_bind.
    rewrite (signature_parse_eq _ _ _ _ _ _ _ _ _ _ _ V2) by lia.
    destruct (Z.eqb_spec
                (ecdsa_signature_parse_compact cx (h sig64)).1 1) as [Q|Q];
      cbn [negb].
    2:{ rewrite bind_ret.
        rewrite (release3_held _ _ _ _ _ _ _ _ _ _ _ _ _ Hnd Hfr).
        finish_run.
        eapply (ecdsa_signature_rejected s msg32 sig64 pubKey33 cx
                  (Some q1) (Some q2) (Some q3));
          try exact Hc; try (cbn; lia); try exact Hacq; auto. }
    rewrite (ecdsa_verify_eq _ _ _ _ _ _ _ _ _ _ _ _ _ V1) by lia.
    rewrite (release3_held _ _ _ _ _ _ _ _ _ _ _ _ _ Hnd Hfr).
    rewrite if_bool_id.
    finish_run.
    eapply (ecdsa_verified s msg32 sig64 pubKey33 cx
              (Some q1) (Some q2) (Some q3));
      try exact Hc; try (cbn; lia); try exact Hacq; auto.
Qed.

Lemma schnorrVerify_run sig64 msg pubKey32 s :
  exists b s' evs,
    Java_scalus_crypto_NativeSecp256k1_schnorrVerify sig64 msg pubKey32 s
    = Ok b s' /\
    returns_to s s' evs /\
    schnorrVerify_path s sig64 msg pubKey32 b evs.
Proof.
  destruct s as [c o h v om tr].
  unfold Java_scalus_crypto_NativeSecp256k1_schnorrVerify.
  rewrite (bind_ok _ _ _ _ _ (get_context_eq c o h v om tr)).
  set (s := mkProcess c o h v om tr).
  destruct (context_in s) as [cx|] eqn:Hc.
  2:{ finish_run.
      - rewrite app_nil_r. auto.
      - apply schnorr_no_context. exact Hc. }
  unfold orM, length_differs. repeat step.
  destruct (Z.eqb_spec (Z.of_nat (length (h sig64))) 64) as [L1|L1];
    cbn [negb].
  2:{ repeat step. finish_run.
      eapply schnorr_wrong_sig_length; [exact Hc | cbn; lia]. }
  repeat step.
  destruct (Z.eqb_spec (Z.of_nat (length (h pubKey32))) 32) as [L2|L2];
    cbn [negb].
  2:{ repeat step. finish_run.
      eapply schnorr_wrong_pubkey_length;
        [exact Hc | cbn; lia | cbn; lia]. }
  repeat step.
  acquire p1 N1 F1. acquire p2 N2 F2. acquire p3 N3 F3.
  pose proof (acquired_intro _ _ _ _ _ _ _ _ N1 N2 N3 F1 F2 F3) as Hacq.
  change (is_null p1 || is_null p2 || is_null p3)
    with (any_null p1 p2 p3).
  destruct (any_null p1 p2 p3) eqn:Hnull.
  - destruct Hacq as (A1 & A2 & A3 & Hnd & Hfr).
    rewrite (release3 _ _ _ _ _ _ _ _ _ _ _ _ _ Hnd Hfr).
    finish_run.
    eapply (schnorr_no_view s sig64 msg pubKey32 cx p1 p2 p3);
      try exact Hc; try (cbn; lia); try exact Hnull.
    unfold acquired; auto.
  - destruct p1 as [q1|], p2 as [q2|], p3 as [q3|]; try discriminate.
    cbn [insert_view].
    destruct (acquired_all _ _ _ _ _ Hacq) as (Hnd & Hfr & D12 & D13 & D23).
    assert (V3 : (<[q3 := (pubKey32, h pubKey32)]>
                    (<[q2 := (msg, h msg)]>
                       (<[q1 := (sig64, h sig64)]> v))) !! q3
                 = Some (pubKey32, h pubKey32)) by map_lookup.
    assert (V2 : (<[q3 := (pubKey32, h pubKey32)]>
                    (<[q2 := (msg, h msg)]>
                       (<[q1 := (sig64, h sig64)]> v))) !! q2
                 = Some (msg, h msg)) by map_lookup.
    assert (V1 : (<[q3 := (pubKey32, h pubKey32)]>
                    (<[q2 := (msg, h msg)]>
                       (<[q1 := (sig64, h sig64)]> v))) !! q1
                 = Some (sig64, h sig64)) by map_lookup.
    rewrite bind_bind.
    rewrite (xonly_parse_eq _ _ _ _ _ _ _ _ _ _ _ V3) by lia.
    destruct (Z.eqb_spec (xonly_pubkey_parse cx (h pubKey32)).1 1) as [P|P];
      cbn [negb].
    2:{ rewrite bind_ret.
        rewrite (release3_held _ _ _ _ _ _ _ _ _ _ _ _ _ Hnd Hfr).
        finish_run.
        eapply (schnorr_pubkey_rejected s sig64 msg pubKey32 cx
                  (Some q1) (Some q2) (Some q3));
          try exact Hc; try (cbn; lia); try exact Hacq; auto. }
    assert (M1 : length (h sig64) = 64) by lia.
    assert (M2 : length (h msg) = Z.to_nat (Z.of_nat (length (h msg))))
      by lia.
    rewrite (schnorrsig_verify_eq _ _ _ _ _ _ _ _ _ _ _ _ _ _ _ _
               V1 M1 V2 M2).
    rewrite (release3_held _ _ _ _ _ _ _ _ _ _ _ _ _ Hnd Hfr).
    rewrite if_bool_id.
    finish_run.
    eapply (schnorr_verified s sig64 msg pubKey32 cx
              (Some q1) (Some q2) (Some q3));
      try exact Hc; try (cbn; lia); try exact Hacq; auto.
Qed.

End Execution.

(** ** Properties of the three entry points *)

Section Claims.
Context {lib : Secp256k1}.

Lemma acquired_distinct (v : gmap nat (nat * list byte)) om p1 p2 p3 :
  acquired v om p1 p2 p3 -> NoDup (held [p1; p2; p3]).
Proof. intros (_ & _ & _ & H & _). exact H. Qed.

Ltac distinct_pointers H :=
  apply acquired_distinct in H; cbn in H;
  repeat match type of H with
         | NoDup (_ :: _) =>
             let N := fresh "N" in apply NoDup_cons in H as [N H]
         end;
  repeat match goal with
         | N : _ ∉ _ :: _ |- _ => apply not_elem_of_cons in N as [? ?]
         end;
  repeat match goal with
         | N : ?a <> ?b |- _ =>
             assert ((a =? b) = false) by (apply Nat.eqb_neq; congruence);
             assert ((b =? a) = false) by (apply Nat.eqb_neq; congruence);
             clear N
         end.

Ltac compute_trace :=
  repeat first
    [ progress cbn
    | rewrite Nat.eqb_refl
    | match goal with H : (_ =? _) = false |- _ => rewrite H end ];
  try reflexivity.

Lemma isValidPubKey_balanced s a b evs :
  isValidPubKey_path s a b evs -> balanced (context_events s ++ evs) = true.
Proof.
  unfold balanced, context_events.
  intros H; destruct H; destruct (ctx_init_once s); compute_trace.
Qed.

Lemma ecdsaVerify_balanced s a1 a2 a3 b evs :
  ecdsaVerify_path s a1 a2 a3 b evs ->
  balanced (context_events s ++ evs) = true.
Proof.
  unfold balanced, context_events.
  intros H; destruct H;
    try match goal with
        | A : acquired _ _ ?p1 ?p2 ?p3 |- _ =>
            destruct p1, p2, p3; try discriminate; distinct_pointers A
        end;
    destruct (ctx_init_once s); compute_trace.
Qed.

Lemma schnorrVerify_balanced s a1 a2 a3 b evs :
  schnorrVerify_path s a1 a2 a3 b evs ->
  balanced (context_events s ++ evs) = true.
Proof.
  unfold balanced, context_events.
  intros H; destruct H;
    try match goal with
        | A : acquired _ _ ?p1 ?p2 ?p3 |- _ =>
            destruct p1, p2, p3; try discriminate; distinct_pointers A
        end;
    destruct (ctx_init_once s); compute_trace.
Qed.

(** C5: on every exit path of the three operations, every view that was
    acquired during the call is released exactly once before the call
    returns, and the call returns holding no view it did not hold before. *)
Theorem views_released_on_every_path (s : Process) (a b c : jbyteArray) :
  (exists r s' evs,
     Java_scalus_crypto_NativeSecp256k1_isValidPubKey a s = Ok r s' /\
     trace s' = trace s ++ evs /\ balanced evs = true /\
     views s' = views s) /\
  (exists r s' evs,
     Java_scalus_crypto_NativeSecp256k1_ecdsaVerify a b c s = Ok r s' /\
     trace s' = trace s ++ evs /\ balanced evs = true /\
     views s' = views s) /\
  (exists r s' evs,
     Java_scalus_crypto_NativeSecp256k1_schnorrVerify a b c s = Ok r s' /\
     trace s' = trace s ++ evs /\ balanced evs = true /\
     views s' = views s).
Proof.
  split; [|split].
  - destruct (isValidPubKey_run a s) as (r & s' & evs & E & F & P).
    destruct F as (_ & _ & _ & Fv & Ft).
    exists r, s', (context_events s ++ evs).
    eauto using isValidPubKey_balanced.
  - destruct (ecdsaVerify_run a b c s) as (r & s' & evs & E & F & P).
    destruct F as (_ & _ & _ & Fv & Ft).
    exists r, s', (context_events s ++ evs).
    eauto using ecdsaVerify_balanced.
  - destruct (schnorrVerify_run a b c s) as (r & s' & evs & E & F & P).
    destruct F as (_ & _ & _ & Fv & Ft).
    exists r, s', (context_events s ++ evs).
    eauto using schnorrVerify_balanced.
Qed.

(** C7: if the context manager holds no context (construction failed, or
    fails on this first use), each of the three operations returns false for
    every input, right after [get_context]: it makes no further call. *)
Theorem no_context_yields_false (s : Process) (a b c : jbyteArray) :
  context_in s = None ->
  (exists s',
     Java_scalus_crypto_NativeSecp256k1_isValidPubKey a s = Ok JNI_FALSE s'
     /\ trace s' = trace s ++ context_events s) /\
  (exists s',
     Java_scalus_crypto_NativeSecp256k1_ecdsaVerify a b c s = Ok JNI_FALSE s'
     /\ trace s' = trace s ++ context_events s) /\
  (exists s',
     Java_scalus_crypto_NativeSecp256k1_schnorrVerify a b c s
     = Ok JNI_FALSE s'
     /\ trace s' = trace s ++ context_events s).
Proof.
  intros Hc. split; [|split].
  - destruct (isValidPubKey_run a s) as (r & s' & evs & E & F & P).
    destruct F as (_ & _ & _ & _ & Ft).
    destruct P; try congruence.
    exists s'. rewrite app_nil_r in Ft. auto.
  - destruct (ecdsaVerify_run a b c s) as (r & s' & evs & E & F & P).
    destruct F as (_ & _ & _ & _ & Ft).
    destruct P; try congruence.
    exists s'. rewrite app_nil_r in Ft. auto.
  - destruct (schnorrVerify_run a b c s) as (r & s' & evs & E & F & P).
    destruct F as (_ & _ & _ & _ & Ft).
    destruct P; try congruence.
    exists s'. rewrite app_nil_r in Ft. auto.
Qed.

Lemma isValidPubKey_discards s a b evs :
  isValidPubKey_path s a b evs ->
  forallb discards (context_events s ++ evs) = true.
Proof.
  unfold context_events.
  intros H; destruct H; destruct (ctx_init_once s); reflexivity.
Qed.

Lemma ecdsaVerify_discards s a1 a2 a3 b evs :
  ecdsaVerify_path s a1 a2 a3 b evs ->
  forallb discards (context_events s ++ evs) = true.
Proof.
  unfold context_events.
  intros H; destruct H;
    try match goal with
        | A : acquired _ _ ?p1 ?p2 ?p3 |- _ => destruct p1, p2, p3
        end;
    destruct (ctx_init_once s); reflexivity.
Qed.

Lemma schnorrVerify_discards s a1 a2 a3 b evs :
  schnorrVerify_path s a1 a2 a3 b evs ->
  forallb discards (context_events s ++ evs) = true.
Proof.
  unfold context_events.
  intros H; destruct H;
    try match goal with
        | A : acquired _ _ ?p1 ?p2 ?p3 |- _ => destruct p1, p2, p3
        end;
    destruct (ctx_init_once s); reflexivity.
Qed.

(** C10: every release made by the three operations is in mode [JNI_ABORT],
    and after the call every Java array holds the bytes it held before. *)
Theorem input_arrays_unchanged (s : Process) (a b c : jbyteArray) :
  (exists r s' evs,
     Java_scalus_crypto_NativeSecp256k1_isValidPubKey a s = Ok r s' /\
     trace s' = trace s ++ evs /\ forallb discards evs = true /\
     heap s' = heap s) /\
  (exists r s' evs,
     Java_scalus_crypto_NativeSecp256k1_ecdsaVerify a b c s = Ok r s' /\
     trace s' = trace s ++ evs /\ forallb discards evs = true /\
     heap s' = heap s) /\
  (exists r s' evs,
     Java_scalus_crypto_NativeSecp256k1_schnorrVerify a b c s = Ok r s' /\
     trace s' = trace s ++ evs /\ forallb discards evs = true /\
     heap s' = heap s).
Proof.
  split; [|split].
  - destruct (isValidPubKey_run a s) as (r & s' & evs & E & F & P).
    destruct F as (_ & _ & Fh & _ & Ft).
    exists r, s', (context_events s ++ evs).
    eauto using isValidPubKey_discards.
  - destruct (ecdsaVerify_run a b c s) as (r & s' & evs & E & F & P).
    destruct F as (_ & _ & Fh & _ & Ft).
    exists r, s', (context_events s ++ evs).
    eauto using ecdsaVerify_discards.
  - destruct (schnorrVerify_run a b c s) as (r & s' & evs & E & F & P).
    destruct F as (_ & _ & Fh & _ & Ft).
    exists r, s', (context_events s ++ evs).
    eauto using schnorrVerify_discards.
Qed.

(** C6, as the code has it: a call with a buffer of the wrong length
    returns false having acquired no view and called no parsing or
    verification function; but [get_context] runs first, so the context is
    acquired (and constructed, on a first use) before any length is read,
    and the lengths are read only if there is a context. *)
Theorem wrong_length_rejected_after_context (s : Process)
    (a b c : jbyteArray) :
  (length (heap s a) <> 33 /\ length (heap s a) <> 65 ->
   exists s' evs,
     Java_scalus_crypto_NativeSecp256k1_isValidPubKey a s = Ok JNI_FALSE s'
     /\ trace s' = trace s ++ context_events s ++ evs
     /\ ctx_init_once s' = PTHREAD_ONCE_DONE
     /\ forallb is_length_read evs = true
     /\ (context_in s = None -> evs = [])) /\
  (length (heap s a) <> 32 \/ length (heap s b) <> 64 \/
   length (heap s c) <> 33 ->
   exists s' evs,
     Java_scalus_crypto_NativeSecp256k1_ecdsaVerify a b c s = Ok JNI_FALSE s'
     /\ trace s' = trace s ++ context_events s ++ evs
     /\ ctx_init_once s' = PTHREAD_ONCE_DONE
     /\ forallb is_length_read evs = true
     /\ (context_in s = None -> evs = [])) /\
  (length (heap s a) <> 64 \/ length (heap s c) <> 32 ->
   exists s' evs,
     Java_scalus_crypto_NativeSecp256k1_schnorrVerify a b c s
     = Ok JNI_FALSE s'
     /\ trace s' = trace s ++ context_events s ++ evs
     /\ ctx_init_once s' = PTHREAD_ONCE_DONE
     /\ forallb is_length_read evs = true
     /\ (context_in s = None -> evs = [])).
Proof.
  split; [|split]; intros W.
  - destruct (isValidPubKey_run a s) as (r & s' & evs & E & F & P).
    destruct F as (_ & Fo & _ & _ & Ft).
    destruct P; try lia; exists s'; eexists;
      (split; [exact E|]; split; [exact Ft|]; split; [exact Fo|];
       split; [reflexivity|]);
      congruence.
  - destruct (ecdsaVerify_run a b c s) as (r & s' & evs & E & F & P).
    destruct F as (_ & Fo & _ & _ & Ft).
    destruct P; try lia; exists s'; eexists;
      (split; [exact E|]; split; [exact Ft|]; split; [exact Fo|];
       split; [reflexivity|]);
      congruence.
  - destruct (schnorrVerify_run a b c s) as (r & s' & evs & E & F & P).
    destruct F as (_ & Fo & _ & _ & Ft).
    destruct P; try lia; exists s'; eexists;
      (split; [exact E|]; split; [exact Ft|]; split; [exact Fo|];
       split; [reflexivity|]);
      congruence.
Qed.

Lemma acquired_any_null (v : gmap nat (nat * list byte)) om p1 p2 p3 :
  acquired v om p1 p2 p3 -> any_null p1 p2 p3 = negb (allocs_ok 3 om).
Proof.
  intros (H1 & H2 & H3 & _). unfold any_null. cbn [allocs_ok].
  rewrite H1, H2, H3.
  destruct (alloc_fails om), (alloc_fails (tail om)),
    (alloc_fails (tail (tail om))); reflexivity.
Qed.

Ltac same_context :=
  match goal with
  | H1 : context_in ?s = Some ?c, H2 : context_in ?s = Some ?d |- _ =>
      assert (d = c) by congruence; subst d; clear H2
  | H1 : context_in ?s = None, H2 : context_in ?s = Some _ |- _ =>
      congruence
  end.

Ltac views_contradiction :=
  match goal with
  | A : acquired _ _ _ _ _, N : any_null _ _ _ = true,
    O : allocs_ok 3 _ = true |- _ =>
      rewrite (acquired_any_null _ _ _ _ _ A), O in N; discriminate
  end.

Ltac views_available :=
  match goal with
  | A : acquired _ _ _ _ _, N : any_null _ _ _ = false |- _ =>
      rewrite (acquired_any_null _ _ _ _ _ A) in N;
      apply negb_false_iff in N; exact N
  end.

Lemma ecdsaVerify_path_true s a b c r evs :
  ecdsaVerify_path s a b c r evs -> (r = JNI_TRUE <-> ecdsa_accepted s a b c).
Proof.
  intros P. unfold ecdsa_accepted.
  destruct P;
    try (split;
         [ discriminate
         | intros (cx & Hc & Ho & L1 & L2 & L3 & K1 & K2 & K3);
           try same_context; try lia; try views_contradiction;
           congruence ]).
  subst rc. split.
  - intros R. apply Z.eqb_eq in R. exists c0.
    repeat (split; [first [assumption | views_available]|]).
    exact R.
  - intros (cx & Hc & Ho & L1 & L2 & L3 & K1 & K2 & K3).
    same_context. apply Z.eqb_eq. exact K3.
Qed.

Lemma schnorrVerify_path_true s a b c r evs :
  schnorrVerify_path s a b c r evs ->
  (r = JNI_TRUE <-> schnorr_accepted s a b c).
Proof.
  intros P. unfold schnorr_accepted.
  destruct P;
    try (split;
         [ discriminate
         | intros (cx & Hc & Ho & L1 & L2 & K1 & K2);
           try same_context; try lia; try views_contradiction;
           congruence ]).
  subst rc. split.
  - intros R. apply Z.eqb_eq in R. exists c0.
    repeat (split; [first [assumption | views_available]|]).
    exact R.
  - intros (cx & Hc & Ho & L1 & L2 & K1 & K2).
    same_context. apply Z.eqb_eq. exact K2.
Qed.

Lemma isValidPubKey_path_true s a r evs :
  isValidPubKey_path s a r evs -> (r = JNI_TRUE <-> pubkey_accepted s a).
Proof.
  intros P. unfold pubkey_accepted.
  destruct P;
    try (split;
         [ discriminate
         | intros (cx & Hc & Ho & L & K);
           try same_context; try lia; cbn in Ho; congruence ]).
  - split; [discriminate|].
    intros (cx & Hc & Ho & L & K). cbn in Ho.
    rewrite andb_true_r in Ho. apply negb_true_iff in Ho. congruence.
  - split.
    + intros R. apply Z.eqb_eq in R. exists c.
      repeat (split; [first [assumption | cbn; rewrite andb_true_r;
                               apply negb_true_iff; assumption]|]).
      exact R.
    + intros (cx & Hc & Ho & L & K). same_context.
      apply Z.eqb_eq. exact K.
Qed.

(** C1, as the code has it: [ecdsaVerify] returns true if and only if the
    context is available, the three views are acquired, the lengths are 32,
    64 and 33, the key parses, the compact signature parses and the
    verification returns 1; and when the key does not parse, neither the
    signature parser nor the verification is called. *)
Theorem ecdsaVerify_true_iff (s : Process)
    (msg32 sig64 pubKey33 : jbyteArray) :
  exists r s' evs,
    Java_scalus_crypto_NativeSecp256k1_ecdsaVerify msg32 sig64 pubKey33 s
    = Ok r s' /\
    trace s' = trace s ++ evs /\
    (r = JNI_TRUE <->
     exists cx,
       context_in s = Some cx /\
       allocs_ok 3 (oom s) = true /\
       length (heap s msg32) = 32 /\
       length (heap s sig64) = 64 /\
       length (heap s pubKey33) = 33 /\
       (ec_pubkey_parse cx (heap s pubKey33)).1 = 1%Z /\
       (ecdsa_signature_parse_compact cx (heap s sig64)).1 = 1%Z /\
       ecdsa_verify cx
         (ecdsa_signature_parse_compact cx (heap s sig64)).2
         (heap s msg32)
         (ec_pubkey_parse cx (heap s pubKey33)).2 = 1%Z) /\
    (forall cx,
       context_in s = Some cx ->
       (ec_pubkey_parse cx (heap s pubKey33)).1 <> 1%Z ->
       forallb (fun e => negb (is_signature_parse e || is_verification e))
         evs = true).
Proof.
  destruct (ecdsaVerify_run msg32 sig64 pubKey33 s)
    as (r & s' & evs & E & F & P).
  destruct F as (_ & _ & _ & _ & Ft).
  exists r, s', (context_events s ++ evs).
  split; [exact E|]. split; [exact Ft|]. split.
  - exact (ecdsaVerify_path_true _ _ _ _ _ _ P).
  - intros cx Hc K. unfold context_events.
    destruct P; try same_context; try congruence;
      try match goal with
          | A : acquired _ _ ?p1 ?p2 ?p3 |- _ => destruct p1, p2, p3
          end;
      destruct (ctx_init_once s); reflexivity.
Qed.

(** C2, as the code has it: [schnorrVerify] returns true if and only if the
    context is available, the three views are acquired, the signature has
    64 bytes and the key 32, the key parses as an x-only key and the BIP-340
    verification returns 1 on the signature, the message bytes as they are
    (whatever their number) and the parsed key; and when the key does not
    parse, the verification is not called. *)
Theorem schnorrVerify_true_iff (s : Process)
    (sig64 msg pubKey32 : jbyteArray) :
  exists r s' evs,
    Java_scalus_crypto_NativeSecp256k1_schnorrVerify sig64 msg pubKey32 s
    = Ok r s' /\
    trace s' = trace s ++ evs /\
    (r = JNI_TRUE <->
     exists cx,
       context_in s = Some cx /\
       allocs_ok 3 (oom s) = true /\
       length (heap s sig64) = 64 /\
       length (heap s pubKey32) = 32 /\
       (xonly_pubkey_parse cx (heap s pubKey32)).1 = 1%Z /\
       schnorrsig_verify cx (heap s sig64) (heap s msg)
         (xonly_pubkey_parse cx (heap s pubKey32)).2 = 1%Z) /\
    (forall cx,
       context_in s = Some cx ->
       (xonly_pubkey_parse cx (heap s pubKey32)).1 <> 1%Z ->
       forallb (fun e => negb (is_verification e)) evs = true).
Proof.
  destruct (schnorrVerify_run sig64 msg pubKey32 s)
    as (r & s' & evs & E & F & P).
  destruct F as (_ & _ & _ & _ & Ft).
  exists r, s', (context_events s ++ evs).
  split; [exact E|]. split; [exact Ft|]. split.
  - exact (schnorrVerify_path_true _ _ _ _ _ _ P).
  - intros cx Hc K. unfold context_events.
    destruct P; try same_context; try congruence;
      try match goal with
          | A : acquired _ _ ?p1 ?p2 ?p3 |- _ => destruct p1, p2, p3
          end;
      destruct (ctx_init_once s); reflexivity.
Qed.

(** C3, as the code has it: [isValidPubKey] returns true if and only if the
    context is available, the view is acquired, the length is 33 or 65 and
    the buffer parses as a public key; it never calls a verification
    function, its only library call is that parse, and for a length outside
    33 and 65 it returns false without any library call. *)
Theorem isValidPubKey_true_iff (s : Process) (pubKey : jbyteArray) :
  exists r s' evs,
    Java_scalus_crypto_NativeSecp256k1_isValidPubKey pubKey s = Ok r s' /\
    trace s' = trace s ++ evs /\
    (r = JNI_TRUE <->
     exists cx,
       context_in s = Some cx /\
       allocs_ok 1 (oom s) = true /\
       (length (heap s pubKey) = 33 \/ length (heap s pubKey) = 65) /\
       (ec_pubkey_parse cx (heap s pubKey)).1 = 1%Z) /\
    forallb (fun e => negb (is_verification e)) evs = true /\
    (filter (fun e => is_library_call e) evs = [] \/
     exists rc,
       filter (fun e => is_library_call e) evs
       = [EvPubkeyParse (heap s pubKey) rc]) /\
    (length (heap s pubKey) <> 33 /\ length (heap s pubKey) <> 65 ->
     r = JNI_FALSE /\ filter (fun e => is_library_call e) evs = []).
Proof.
  destruct (isValidPubKey_run pubKey s) as (r & s' & evs & E & F & P).
  destruct F as (_ & _ & _ & _ & Ft).
  exists r, s', (context_events s ++ evs).
  split; [exact E|]. split; [exact Ft|]. split; [|split; [|split]].
  - exact (isValidPubKey_path_true _ _ _ _ P).
  - unfold context_events.
    destruct P; destruct (ctx_init_once s); reflexivity.
  - unfold context_events.
    destruct P; destruct (ctx_init_once s); cbn; eauto.
  - intros W. unfold context_events.
    destruct P; try lia; destruct (ctx_init_once s); cbn; auto.
Qed.

Lemma allocs_ok_outcomes n om :
  allocs_ok n om = forallb negb (outcomes n om).
Proof.
  revert om. induction n as [|n IH]; intros om; cbn; [reflexivity|].
  rewrite IH. reflexivity.
Qed.

Lemma context_in_eq (s1 s2 : Process) :
  ctx s1 = ctx s2 -> ctx_init_once s1 = ctx_init_once s2 ->
  context_in s1 = context_in s2.
Proof. unfold context_in. intros -> ->. reflexivity. Qed.

Lemma bool_eq_iff (b1 b2 : bool) (P1 P2 : Prop) :
  (b1 = true <-> P1) -> (b2 = true <-> P2) -> (P1 <-> P2) -> b1 = b2.
Proof. destruct b1, b2; intuition congruence. Qed.

End Claims.

(** ** Concrete runs *)

Module Runs.
Import TestDouble.

(** The accepted triples of the stand-in library are accepted when the
    context and the views are there. *)
Example ecdsaVerify_accepts :
  value (Java_scalus_crypto_NativeSecp256k1_ecdsaVerify 0 1 2
           (fresh_process true [])) = Some true.
Proof. vm_compute. reflexivity. Qed.

Example schnorrVerify_accepts :
  value (Java_scalus_crypto_NativeSecp256k1_schnorrVerify 5 4 3
           (fresh_process true [])) = Some true.
Proof. vm_compute. reflexivity. Qed.

Example schnorrVerify_other_message :
  value (Java_scalus_crypto_NativeSecp256k1_schnorrVerify 5 0 3
           (fresh_process true [])) = Some false.
Proof. vm_compute. reflexivity. Qed.

Example isValidPubKey_accepts :
  option_map trace
    (final (Java_scalus_crypto_NativeSecp256k1_isValidPubKey 2
              (fresh_process true [])))
  = Some [EvPthreadOnce; EvContextCreate 257; EvGetArrayLength 2;
          EvGetByteArrayElements 2 (Some 0);
          EvPubkeyParse key33 1;
          EvReleaseByteArrayElements 2 (Some 0) JNI_ABORT].
Proof. vm_compute. reflexivity. Qed.

(** The view discipline tells a leak and a double release from a clean
    trace. *)
Example balanced_rejects_leak :
  balanced [EvGetByteArrayElements 0 (Some 7)] = false.
Proof. reflexivity. Qed.

Example balanced_rejects_double_release :
  balanced [EvGetByteArrayElements 0 (Some 7);
            EvReleaseByteArrayElements 0 (Some 7) JNI_ABORT;
            EvReleaseByteArrayElements 0 (Some 7) JNI_ABORT] = false.
Proof. reflexivity. Qed.

(** C1 does not hold as stated: on a digest, a signature and a key of the
    right lengths that parse and verify, [ecdsaVerify] returns false when
    the context could not be constructed, and also when the JVM cannot
    provide a view. *)
Lemma ecdsaVerify_rejects_valid_triple :
  ~ (value (Java_scalus_crypto_NativeSecp256k1_ecdsaVerify 0 1 2
              (fresh_process false [])) = Some true <->
     length (arrays 0) = 32 /\ length (arrays 1) = 64 /\
     length (arrays 2) = 33 /\
     (@ec_pubkey_parse (library false) tt (arrays 2)).1 = 1%Z /\
     (@ecdsa_signature_parse_compact (library false) tt (arrays 1)).1 = 1%Z /\
     @ecdsa_verify (library false) tt
       (@ecdsa_signature_parse_compact (library false) tt (arrays 1)).2
       (arrays 0)
       (@ec_pubkey_parse (library false) tt (arrays 2)).2 = 1%Z) /\
  ~ (value (Java_scalus_crypto_NativeSecp256k1_ecdsaVerify 0 1 2
              (fresh_process true [true])) = Some true <->
     length (arrays 0) = 32 /\ length (arrays 1) = 64 /\
     length (arrays 2) = 33 /\
     (@ec_pubkey_parse (library true) tt (arrays 2)).1 = 1%Z /\
     (@ecdsa_signature_parse_compact (library true) tt (arrays 1)).1 = 1%Z /\
     @ecdsa_verify (library true) tt
       (@ecdsa_signature_parse_compact (library true) tt (arrays 1)).2
       (arrays 0)
       (@ec_pubkey_parse (library true) tt (arrays 2)).2 = 1%Z).
Proof.
  split; intros [_ H];
    assert (F : Some false = Some true)
      by (apply H; vm_compute; repeat split);
    discriminate F.
Qed.

(** C2 does not hold as stated, for the same two reasons. *)
Lemma schnorrVerify_rejects_valid_triple :
  ~ (value (Java_scalus_crypto_NativeSecp256k1_schnorrVerify 5 4 3
              (fresh_process false [])) = Some true <->
     length (arrays 5) = 64 /\ length (arrays 3) = 32 /\
     (@xonly_pubkey_parse (library false) tt (arrays 3)).1 = 1%Z /\
     @schnorrsig_verify (library false) tt (arrays 5) (arrays 4)
       (@xonly_pubkey_parse (library false) tt (arrays 3)).2 = 1%Z) /\
  ~ (value (Java_scalus_crypto_NativeSecp256k1_schnorrVerify 5 4 3
              (fresh_process true [false; true])) = Some true <->
     length (arrays 5) = 64 /\ length (arrays 3) = 32 /\
     (@xonly_pubkey_parse (library true) tt (arrays 3)).1 = 1%Z /\
     @schnorrsig_verify (library true) tt (arrays 5) (arrays 4)
       (@xonly_pubkey_parse (library true) tt (arrays 3)).2 = 1%Z).
Proof.
  split; intros [_ H];
    assert (F : Some false = Some true)
      by (apply H; vm_compute; repeat split);
    discriminate F.
Qed.

(** C3 does not hold as stated, for the same two reasons. *)
Lemma isValidPubKey_rejects_valid_key :
  ~ (value (Java_scalus_crypto_NativeSecp256k1_isValidPubKey 2
              (fresh_process false [])) = Some true <->
     (length (arrays 2) = 33 \/ length (arrays 2) = 65) /\
     (@ec_pubkey_parse (library false) tt (arrays 2)).1 = 1%Z) /\
  ~ (value (Java_scalus_crypto_NativeSecp256k1_isValidPubKey 2
              (fresh_process true [true])) = Some true <->
     (length (arrays 2) = 33 \/ length (arrays 2) = 65) /\
     (@ec_pubkey_parse (library true) tt (arrays 2)).1 = 1%Z).
Proof.
  split; intros [_ H];
    assert (F : Some false = Some true)
      by (apply H; vm_compute; split; [left|]; reflexivity);
    discriminate F.
Qed.

(** C6 does not hold as stated: a first call of [isValidPubKey] on an empty
    array constructs the context before it reads the length. *)
Lemma wrong_length_call_constructs_context :
  length (arrays 7) <> 33 /\ length (arrays 7) <> 65 /\
  ctx_init_once (fresh_process true []) = PTHREAD_ONCE_INIT /\
  option_map trace
    (final (Java_scalus_crypto_NativeSecp256k1_isValidPubKey 7
              (fresh_process true [])))
  = Some [EvPthreadOnce; EvContextCreate 257; EvGetArrayLength 7] /\
  option_map ctx_init_once
    (final (Java_scalus_crypto_NativeSecp256k1_isValidPubKey 7
              (fresh_process true [])))
  = Some PTHREAD_ONCE_DONE /\
  ~ (exists s' evs,
       Java_scalus_crypto_NativeSecp256k1_isValidPubKey 7
         (fresh_process true []) = Ok false s' /\
       trace s' = trace (fresh_process true []) ++ evs /\
       forallb (fun e => negb (is_context_call e)) evs = true).
Proof.
  split; [cbn; lia|]. split; [cbn; lia|]. split; [reflexivity|].
  split; [vm_compute; reflexivity|]. split; [vm_compute; reflexivity|].
  intros (s' & evs & E & T & N).
  apply (f_equal final) in E. vm_compute in E. injection E as <-.
  cbn in T. subst evs. discriminate N.
Qed.

(** C9 does not hold as stated: two calls of [ecdsaVerify] on the same
    arrays, with the same context, return different results when the JVM
    provides the views in one and not in the other. *)
Lemma same_inputs_different_result :
  ctx (ready_process []) = ctx (ready_process [true]) /\
  ctx_init_once (ready_process []) = ctx_init_once (ready_process [true]) /\
  heap (ready_process []) = heap (ready_process [true]) /\
  value (Java_scalus_crypto_NativeSecp256k1_ecdsaVerify 0 1 2
           (ready_process []))
  <> value (Java_scalus_crypto_NativeSecp256k1_ecdsaVerify 0 1 2
              (ready_process [true])).
Proof.
  repeat (split; [reflexivity|]). vm_compute. discriminate.
Qed.

(** The theorems at work on concrete runs. *)

Lemma ecdsaVerify_true_iff_witness :
  exists s' evs,
    Java_scalus_crypto_NativeSecp256k1_ecdsaVerify 0 1 6
      (fresh_process true []) = Ok false s' /\
    forallb (fun e => negb (is_signature_parse e || is_verification e)) evs
    = true /\
    trace s' = trace (fresh_process true []) ++ evs.
Proof.
  destruct (ecdsaVerify_true_iff (fresh_process true []) 0 1 6)
    as (r & s' & evs & E & T & Hiff & Hshort).
  exists s', evs.
  assert (K : (@ec_pubkey_parse (library true) tt (arrays 6)).1 <> 1%Z)
    by (vm_compute; discriminate).
  split; [|split; [exact (Hshort tt eq_refl K) | exact T]].
  destruct r; [|exact E].
  destruct (proj1 Hiff eq_refl) as ([] & _ & _ & _ & _ & _ & K1 & _).
  contradiction (K K1).
Defined.

Lemma schnorrVerify_true_iff_witness :
  exists s' evs,
    Java_scalus_crypto_NativeSecp256k1_schnorrVerify 5 4 8
      (fresh_process true []) = Ok false s' /\
    forallb (fun e => negb (is_verification e)) evs = true /\
    trace s' = trace (fresh_process true []) ++ evs.
Proof.
  destruct (schnorrVerify_true_iff (fresh_process true []) 5 4 8)
    as (r & s' & evs & E & T & Hiff & Hshort).
  exists s', evs.
  assert (K : (@xonly_pubkey_parse (library true) tt (arrays 8)).1 <> 1%Z)
    by (vm_compute; discriminate).
  split; [|split; [exact (Hshort tt eq_refl K) | exact T]].
  destruct r; [|exact E].
  destruct (proj1 Hiff eq_refl) as ([] & _ & _ & _ & _ & K1 & _).
  contradiction (K K1).
Defined.

Lemma isValidPubKey_true_iff_witness :
  (length (arrays 7) <> 33 /\ length (arrays 7) <> 65) /\
  exists s' evs,
    Java_scalus_crypto_NativeSecp256k1_isValidPubKey 7
      (fresh_process true []) = Ok false s' /\
    filter (fun e => is_library_call e) evs = [] /\
    trace s' = trace (fresh_process true []) ++ evs.
Proof.
  assert (W : length (arrays 7) <> 33 /\ length (arrays 7) <> 65)
    by (cbn; lia).
  split; [exact W|].
  destruct (isValidPubKey_true_iff (fresh_process true []) 7)
    as (r & s' & evs & E & T & _ & _ & _ & Hlen).
  destruct (Hlen W) as [-> Hnone].
  exists s', evs. auto.
Defined.

Lemma wrong_length_rejected_after_context_witness :
  (length (arrays 7) <> 33 /\ length (arrays 7) <> 65) /\
  (length (arrays 7) <> 32 \/ length (arrays 1) <> 64 \/
   length (arrays 2) <> 33) /\
  (length (arrays 7) <> 64 \/ length (arrays 2) <> 32) /\
  (exists s',
     Java_scalus_crypto_NativeSecp256k1_isValidPubKey 7
       (fresh_process true []) = Ok false s') /\
  (exists s',
     Java_scalus_crypto_NativeSecp256k1_ecdsaVerify 7 1 2
       (fresh_process true []) = Ok false s') /\
  (exists s',
     Java_scalus_crypto_NativeSecp256k1_schnorrVerify 7 1 2
       (fresh_process true []) = Ok false s').
Proof.
  assert (W1 : length (arrays 7) <> 33 /\ length (arrays 7) <> 65)
    by (cbn; lia).
  assert (W2 : length (arrays 7) <> 32 \/ length (arrays 1) <> 64 \/
               length (arrays 2) <> 33) by (left; cbn; lia).
  assert (W3 : length (arrays 7) <> 64 \/ length (arrays 2) <> 32)
    by (left; cbn; lia).
  destruct (wrong_length_rejected_after_context (fresh_process true [])
              7 1 2) as (H1 & H2 & H3).
  destruct (H1 W1) as (s1 & _ & E1 & _).
  destruct (H2 W2) as (s2 & _ & E2 & _).
  destruct (H3 W3) as (s3 & _ & E3 & _).
  repeat (split; [assumption|]).
  split; [exists s1; exact E1|].
  split; [exists s2; exact E2 | exists s3; exact E3].
Defined.

Lemma no_context_yields_false_witness :
  context_in (fresh_process false []) = None /\
  (exists s',
     Java_scalus_crypto_NativeSecp256k1_isValidPubKey 2
       (fresh_process false []) = Ok false s') /\
  (exists s',
     Java_scalus_crypto_NativeSecp256k1_ecdsaVerify 2 1 2
       (fresh_process false []) = Ok false s') /\
  (exists s',
     Java_scalus_crypto_NativeSecp256k1_schnorrVerify 2 1 2
       (fresh_process false []) = Ok false s').
Proof.
  split; [reflexivity|].
  destruct (no_context_yields_false (fresh_process false []) 2 1 2 eq_refl)
    as ((s1 & E1 & _) & (s2 & E2 & _) & (s3 & E3 & _)).
  split; [exists s1; exact E1|].
  split; [exists s2; exact E2 | exists s3; exact E3].
Defined.

End Runs.

(** ** How the calls compose *)

Section Composition.
Context {lib : Secp256k1}.

Ltac path_cases P :=
  destruct P;
  try match goal with
      | A : acquired _ _ ?p1 ?p2 ?p3 |- _ =>
          destruct p1, p2, p3; try discriminate
      end.

Lemma init_context_eq c o h v om tr :
  let s := mkProcess c o h v om tr in
  Java_scalus_crypto_Secp256k1Context_secp256k1_init_context s =
  Ok (context_in s)
     (mkProcess (context_in s) PTHREAD_ONCE_DONE h v om
        (tr ++ context_events s)).
Proof.
  intros s. unfold Java_scalus_crypto_Secp256k1Context_secp256k1_init_context.
  rewrite (bind_ok _ _ _ _ _ (get_context_eq c o h v om tr)). reflexivity.
Qed.

Lemma count_app f (l1 l2 : list Event) :
  count f (l1 ++ l2) = count f l1 + count f l2.
Proof. unfold count. rewrite filter_app, length_app. reflexivity. Qed.

Lemma isValidPubKey_quiet s a b evs :
  isValidPubKey_path s a b evs -> count is_construction evs = 0.
Proof. intros P; path_cases P; reflexivity. Qed.

Lemma ecdsaVerify_quiet s a1 a2 a3 b evs :
  ecdsaVerify_path s a1 a2 a3 b evs -> count is_construction evs = 0.
Proof. intros P; path_cases P; reflexivity. Qed.

Lemma schnorrVerify_quiet s a1 a2 a3 b evs :
  schnorrVerify_path s a1 a2 a3 b evs -> count is_construction evs = 0.
Proof. intros P; path_cases P; reflexivity. Qed.

(** Every call runs [get_context] first and then constructs nothing; a
    handle it answers is the context [get_context] returned. *)
Lemma invoke_run call s :
  exists r s' evs,
    invoke call s = Ok r s' /\
    returns_to s s' evs /\
    count is_construction evs = 0 /\
    (forall c, r = Handle c -> c = context_in s).
Proof.
  destruct call as [|a|a b c|a b c]; cbn [invoke].
  - destruct s as [c o h v om tr].
    rewrite (bind_ok _ _ _ _ _ (init_context_eq c o h v om tr)).
    eexists _, _, []. split; [reflexivity|]. split; [|split].
    + unfold returns_to. cbn [ctx ctx_init_once heap views trace].
      rewrite app_nil_r. auto.
    + reflexivity.
    + intros c0 [= <-]. reflexivity.
  - destruct (isValidPubKey_run a s) as (r & s' & evs & E & F & P).
    rewrite (bind_ok _ _ _ _ _ E).
    exists (Verdict r), s', evs.
    split; [reflexivity|]. split; [exact F|].
    split; [exact (isValidPubKey_quiet _ _ _ _ P) | discriminate].
  - destruct (ecdsaVerify_run a b c s) as (r & s' & evs & E & F & P).
    rewrite (bind_ok _ _ _ _ _ E).
    exists (Verdict r), s', evs.
    split; [reflexivity|]. split; [exact F|].
    split; [exact (ecdsaVerify_quiet _ _ _ _ _ _ P) | discriminate].
  - destruct (schnorrVerify_run a b c s) as (r & s' & evs & E & F & P).
    rewrite (bind_ok _ _ _ _ _ E).
    exists (Verdict r), s', evs.
    split; [reflexivity|]. split; [exact F|].
    split; [exact (schnorrVerify_quiet _ _ _ _ _ _ P) | discriminate].
Qed.

Lemma context_in_after s s' evs :
  returns_to s s' evs ->
  context_in s' = context_in s /\ context_events s' = [EvPthreadOnce].
Proof.
  intros (Hc & Ho & _). unfold context_in, context_events at 1.
  rewrite Ho. auto.
Qed.

Lemma context_events_count s :
  count is_construction (context_events s) =
  match ctx_init_once s with
  | PTHREAD_ONCE_INIT => 1
  | PTHREAD_ONCE_DONE => 0
  end.
Proof. unfold context_events. destruct (ctx_init_once s); reflexivity. Qed.


Lemma init_context_again n c h v om tr :
  run_calls (replicate n CallInitContext)
    (mkProcess c PTHREAD_ONCE_DONE h v om tr) =
  Ok (replicate n (Handle c))
     (mkProcess c PTHREAD_ONCE_DONE h v om
        (tr ++ replicate n EvPthreadOnce)).
Proof.
  revert tr. induction n as [|n IH]; intros tr.
  - cbn. rewrite app_nil_r. reflexivity.
  - cbn [replicate run_calls invoke].
    rewrite bind_bind.
    rewrite (bind_ok _ _ _ _ _
               (init_context_eq c PTHREAD_ONCE_DONE h v om tr)).
    rewrite bind_ret. cbn [context_in context_events ctx ctx_init_once].
    rewrite (bind_ok _ _ _ _ _ (IH _)).
    rewrite <- app_assoc. reflexivity.
Qed.

(** X1: [secp256k1_init_context] called again and again answers the same
    handle every time; the first call runs what [get_context] runs on a
    first use, and each later call only calls [pthread_once]: a context that
    could not be constructed is not constructed again. *)
Theorem init_context_repeated (n : nat) (s : Process) :
  exists s',
    run_calls (replicate (S n) CallInitContext) s =
    Ok (replicate (S n) (Handle (context_in s))) s' /\
    trace s' = trace s ++ context_events s ++ replicate n EvPthreadOnce /\
    ctx s' = context_in s /\
    ctx_init_once s' = PTHREAD_ONCE_DONE.
Proof.
  destruct s as [c o h v om tr].
  cbn [replicate run_calls invoke].
  rewrite bind_bind.
  rewrite (bind_ok _ _ _ _ _ (init_context_eq c o h v om tr)).
  rewrite bind_ret.
  rewrite (bind_ok _ _ _ _ _ (init_context_again n _ _ _ _ _)).
  eexists. split; [reflexivity|].
  cbn [trace ctx ctx_init_once]. rewrite <- app_assoc. auto.
Qed.

(** The answer of a call is determined by the context [get_context]
    returns, the Java heap and the outcomes of the next view allocations. *)
Lemma invoke_value_congr call (s1 s2 : Process) :
  context_in s1 = context_in s2 ->
  heap s1 = heap s2 ->
  outcomes 3 (oom s1) = outcomes 3 (oom s2) ->
  value (invoke call s1) = value (invoke call s2).
Proof.
  intros Hcx Hh Hom.
  assert (H3 : allocs_ok 3 (oom s1) = allocs_ok 3 (oom s2))
    by (rewrite !allocs_ok_outcomes, Hom; reflexivity).
  assert (H1 : allocs_ok 1 (oom s1) = allocs_ok 1 (oom s2)).
  { cbn in Hom. injection Hom as E1 _. cbn. rewrite E1. reflexivity. }
  destruct call as [|a|a b c|a b c]; cbn [invoke].
  - destruct s1 as [c1 o1 h1 v1 om1 tr1], s2 as [c2 o2 h2 v2 om2 tr2].
    rewrite (bind_ok _ _ _ _ _ (init_context_eq c1 o1 h1 v1 om1 tr1)).
    rewrite (bind_ok _ _ _ _ _ (init_context_eq c2 o2 h2 v2 om2 tr2)).
    cbn [retM value]. rewrite Hcx. reflexivity.
  - destruct (isValidPubKey_run a s1) as (r1 & t1 & e1 & E1 & _ & P1).
    destruct (isValidPubKey_run a s2) as (r2 & t2 & e2 & E2 & _ & P2).
    rewrite (bind_ok _ _ _ _ _ E1), (bind_ok _ _ _ _ _ E2).
    cbn [retM value]. do 2 f_equal.
    eapply bool_eq_iff;
      [ exact (isValidPubKey_path_true _ _ _ _ P1)
      | exact (isValidPubKey_path_true _ _ _ _ P2) | ].
    unfold pubkey_accepted. rewrite Hcx, H1, Hh. reflexivity.
  - destruct (ecdsaVerify_run a b c s1) as (r1 & t1 & e1 & E1 & _ & P1).
    destruct (ecdsaVerify_run a b c s2) as (r2 & t2 & e2 & E2 & _ & P2).
    rewrite (bind_ok _ _ _ _ _ E1), (bind_ok _ _ _ _ _ E2).
    cbn [retM value]. do 2 f_equal.
    eapply bool_eq_iff;
      [ exact (ecdsaVerify_path_true _ _ _ _ _ _ P1)
      | exact (ecdsaVerify_path_true _ _ _ _ _ _ P2) | ].
    unfold ecdsa_accepted. rewrite Hcx, H3, Hh. reflexivity.
  - destruct (schnorrVerify_run a b c s1) as (r1 & t1 & e1 & E1 & _ & P1).
    destruct (schnorrVerify_run a b c s2) as (r2 & t2 & e2 & E2 & _ & P2).
    rewrite (bind_ok _ _ _ _ _ E1), (bind_ok _ _ _ _ _ E2).
    cbn [retM value]. do 2 f_equal.
    eapply bool_eq_iff;
      [ exact (schnorrVerify_path_true _ _ _ _ _ _ P1)
      | exact (schnorrVerify_path_true _ _ _ _ _ _ P2) | ].
    unfold schnorr_accepted. rewrite Hcx, H3, Hh. reflexivity.
Qed.

(** X2: calling [secp256k1_init_context] before a call does not change what
    the call answers. *)
Theorem init_context_first_changes_nothing (call : Call) (s : Process) :
  value (bindM (invoke CallInitContext) (fun _ => invoke call) s)
  = value (invoke call s).
Proof.
  destruct s as [c o h v om tr]. cbn [invoke].
  rewrite bind_bind.
  rewrite (bind_ok _ _ _ _ _ (init_context_eq c o h v om tr)).
  rewrite bind_ret.
  apply invoke_value_congr; reflexivity.
Qed.

(** X5: a call answers the same after any other call as it answers without
    it, the outcomes of the view allocations being the same: the calls keep
    nothing from one to the next but the context. *)
Theorem earlier_call_changes_nothing (first next : Call) (s : Process) :
  exists r s1,
    invoke first s = Ok r s1 /\
    value (invoke next s1) = value (invoke next (set_oom (oom s1) s)).
Proof.
  destruct (invoke_run first s) as (r & s1 & evs & E & F & _).
  exists r, s1. split; [exact E|].
  destruct (context_in_after _ _ _ F) as (Cx & _).
  destruct F as (_ & _ & Fh & _).
  apply invoke_value_congr.
  - rewrite Cx. destruct s; reflexivity.
  - rewrite Fh. destruct s; reflexivity.
  - destruct s; reflexivity.
Qed.

(** X4: a key under which [ecdsaVerify] accepts a signature is a key
    [isValidPubKey] accepts, in the same state. *)
Theorem ecdsaVerify_key_is_valid (s : Process)
    (msg32 sig64 pubKey33 : jbyteArray) :
  value (Java_scalus_crypto_NativeSecp256k1_ecdsaVerify
           msg32 sig64 pubKey33 s) = Some true ->
  value (Java_scalus_crypto_NativeSecp256k1_isValidPubKey pubKey33 s)
  = Some true.
Proof.
  destruct (ecdsaVerify_run msg32 sig64 pubKey33 s)
    as (r1 & t1 & e1 & E1 & _ & P1).
  destruct (isValidPubKey_run pubKey33 s) as (r2 & t2 & e2 & E2 & _ & P2).
  rewrite E1, E2. cbn [value]. intros [= ->]. f_equal.
  apply (isValidPubKey_path_true _ _ _ _ P2).
  destruct (proj1 (ecdsaVerify_path_true _ _ _ _ _ _ P1) eq_refl)
    as (cx & Hc & Ho & _ & _ & L & K & _).
  exists cx. split; [exact Hc|]. split; [|split; [left; exact L | exact K]].
  cbn in Ho |- *. apply andb_true_iff in Ho as [Ho _].
  rewrite Ho. reflexivity.
Qed.

Ltac each_event :=
  cbn [app released];
  repeat (constructor; [cbn; auto|]); try constructor.

(** X6: what the library is handed is the whole content of the caller's
    array, of the length of its kind: 33 or 65 bytes for the key of
    [isValidPubKey]; 33, 64 and 32 bytes for the key, the signature and the
    digest of [ecdsaVerify]; 32 and 64 bytes for the key and the signature
    of [schnorrVerify], and its message entire.  No entry point calls a
    library function of another. *)
Theorem library_reads_whole_arrays (s : Process) (a b c : jbyteArray) :
  (exists r s' evs,
     Java_scalus_crypto_NativeSecp256k1_isValidPubKey a s = Ok r s' /\
     trace s' = trace s ++ evs /\
     Forall (pubkey_input s a) evs) /\
  (exists r s' evs,
     Java_scalus_crypto_NativeSecp256k1_ecdsaVerify a b c s = Ok r s' /\
     trace s' = trace s ++ evs /\
     Forall (ecdsa_input s a b c) evs) /\
  (exists r s' evs,
     Java_scalus_crypto_NativeSecp256k1_schnorrVerify a b c s = Ok r s' /\
     trace s' = trace s ++ evs /\
     Forall (schnorr_input s a b c) evs).
Proof.
  split; [|split].
  - destruct (isValidPubKey_run a s) as (r & s' & evs & E & F & P).
    destruct F as (_ & _ & _ & _ & Ft).
    exists r, s', (context_events s ++ evs).
    split; [exact E|]. split; [exact Ft|].
    unfold context_events.
    path_cases P; destruct (ctx_init_once s); each_event.
  - destruct (ecdsaVerify_run a b c s) as (r & s' & evs & E & F & P).
    destruct F as (_ & _ & _ & _ & Ft).
    exists r, s', (context_events s ++ evs).
    split; [exact E|]. split; [exact Ft|].
    unfold context_events.
    path_cases P; destruct (ctx_init_once s); each_event.
  - destruct (schnorrVerify_run a b c s) as (r & s' & evs & E & F & P).
    destruct F as (_ & _ & _ & _ & Ft).
    exists r, s', (context_events s ++ evs).
    split; [exact E|]. split; [exact Ft|].
    unfold context_events.
    path_cases P; destruct (ctx_init_once s); each_event.
Qed.

(** X7: every entry point works in phases that never go back: the context,
    then the lengths, then the views, then the library, then the releases.
    No length is read after a view is requested, no view is requested after
    a library call, and no library call follows a release. *)
Theorem calls_in_phase_order (s : Process) (a b c : jbyteArray) :
  (exists r s' evs,
     Java_scalus_crypto_NativeSecp256k1_isValidPubKey a s = Ok r s' /\
     trace s' = trace s ++ evs /\
     ascending (map phase evs) = true) /\
  (exists r s' evs,
     Java_scalus_crypto_NativeSecp256k1_ecdsaVerify a b c s = Ok r s' /\
     trace s' = trace s ++ evs /\
     ascending (map phase evs) = true) /\
  (exists r s' evs,
     Java_scalus_crypto_NativeSecp256k1_schnorrVerify a b c s = Ok r s' /\
     trace s' = trace s ++ evs /\
     ascending (map phase evs) = true).
Proof.
  split; [|split].
  - destruct (isValidPubKey_run a s) as (r & s' & evs & E & F & P).
    destruct F as (_ & _ & _ & _ & Ft).
    exists r, s', (context_events s ++ evs).
    split; [exact E|]. split; [exact Ft|].
    unfold context_events.
    path_cases P; destruct (ctx_init_once s); reflexivity.
  - destruct (ecdsaVerify_run a b c s) as (r & s' & evs & E & F & P).
    destruct F as (_ & _ & _ & _ & Ft).
    exists r, s', (context_events s ++ evs).
    split; [exact E|]. split; [exact Ft|].
    unfold context_events.
    path_cases P; destruct (ctx_init_once s); reflexivity.
  - destruct (schnorrVerify_run a b c s) as (r & s' & evs & E & F & P).
    destruct F as (_ & _ & _ & _ & Ft).
    exists r, s', (context_events s ++ evs).
    split; [exact E|]. split; [exact Ft|].
    unfold context_events.
    path_cases P; destruct (ctx_init_once s); reflexivity.
Qed.



End Composition.

(** ** Concrete runs of sequences of calls *)

Module Sequences.
Import TestDouble.

(** A caller validates a key, asks for the handle and verifies a signature:
    one construction, three answers. *)
Example three_calls :
  value (run_calls [CallIsValidPubKey 2; CallInitContext;
                    CallEcdsaVerify 0 1 2] (fresh_process true []))
  = Some [Verdict true; @Handle (library true) (Some tt); Verdict true].
Proof. vm_compute. reflexivity. Qed.

(** A construction that failed is not tried again. *)
Example failed_construction_stays :
  option_map trace
    (final (run_calls [CallInitContext; CallIsValidPubKey 2;
                       CallInitContext] (fresh_process false [])))
  = Some [EvPthreadOnce; EvContextCreate 257; EvPthreadOnce;
          EvPthreadOnce].
Proof. vm_compute. reflexivity. Qed.


Lemma ecdsaVerify_key_is_valid_witness :
  value (Java_scalus_crypto_NativeSecp256k1_ecdsaVerify 0 1 2
           (fresh_process true [])) = Some true /\
  value (Java_scalus_crypto_NativeSecp256k1_isValidPubKey 2
           (fresh_process true [])) = Some true.
Proof.
  assert (H : value (Java_scalus_crypto_NativeSecp256k1_ecdsaVerify 0 1 2
                       (fresh_process true [])) = Some true)
    by (vm_compute; reflexivity).
  split; [exact H|].
  exact (ecdsaVerify_key_is_valid (fresh_process true []) 0 1 2 H).
Defined.

End Sequences.

(** ** Null array references *)

Section NullReferences.
Context {lib : Secp256k1}.

(** On references that are not null the entry points are the ones
    above. *)
Lemma isValidPubKey_on_array a s :
  Nullable.Java_scalus_crypto_NativeSecp256k1_isValidPubKey (Some a) s
  = Java_scalus_crypto_NativeSecp256k1_isValidPubKey a s.
Proof. reflexivity. Qed.

Lemma ecdsaVerify_on_arrays a b c s :
  Nullable.Java_scalus_crypto_NativeSecp256k1_ecdsaVerify
    (Some a) (Some b) (Some c) s
  = Java_scalus_crypto_NativeSecp256k1_ecdsaVerify a b c s.
Proof. reflexivity. Qed.

Lemma schnorrVerify_on_arrays a b c s :
  Nullable.Java_scalus_crypto_NativeSecp256k1_schnorrVerify
    (Some a) (Some b) (Some c) s
  = Java_scalus_crypto_NativeSecp256k1_schnorrVerify a b c s.
Proof. reflexivity. Qed.

Ltac advance :=
  first
    [ rewrite bind_bind
    | rewrite bind_ret
    | rewrite (bind_ok _ _ _ _ _ (GetArrayLength_eq _ _ _ _ _ _ _)) ];
  cbv beta.

Ltac length_is t n :=
  let E := fresh "E" in
  assert (E : (t =? n) = true) by (apply Nat.eqb_eq; lia);
  rewrite E; clear E.

Ltac length_is_not t n :=
  let E := fresh "E" in
  assert (E : (t =? n) = false) by (apply Nat.eqb_neq; lia);
  rewrite E; clear E.

Lemma isValidPubKey_null s :
  match context_in s with
  | Some _ =>
      Nullable.Java_scalus_crypto_NativeSecp256k1_isValidPubKey None s
      = Fault
  | None =>
      exists s',
        Nullable.Java_scalus_crypto_NativeSecp256k1_isValidPubKey None s
        = Ok JNI_FALSE s'
  end.
Proof.
  destruct s as [c o h v om tr].
  unfold Nullable.Java_scalus_crypto_NativeSecp256k1_isValidPubKey.
  rewrite (bind_ok _ _ _ _ _ (get_context_eq c o h v om tr)).
  destruct (context_in _); [reflexivity | eexists; reflexivity].
Qed.

Ltac rejected :=
  cbn [andb is_null]; eexists _, _; split; [reflexivity | discriminate].

Lemma ecdsaVerify_nullable s a b c :
  if Nullable.ecdsaVerify_reads_null s a b c
  then Nullable.Java_scalus_crypto_NativeSecp256k1_ecdsaVerify a b c s
       = Fault
  else
    exists r s',
      Nullable.Java_scalus_crypto_NativeSecp256k1_ecdsaVerify a b c s
      = Ok r s' /\
      (r = JNI_TRUE ->
       exists x y z,
         a = Some x /\ b = Some y /\ c = Some z /\ ecdsa_accepted s x y z).
Proof.
  unfold Nullable.ecdsaVerify_reads_null.
  destruct a as [x|], b as [y|], c as [z|];
    try (cbn [is_null]; rewrite ?andb_false_r;
         replace (match context_in s with Some _ => false | None => false end)
           with false by (destruct (context_in s); reflexivity);
         rewrite ecdsaVerify_on_arrays;
         destruct (ecdsaVerify_run x y z s) as (r & s' & evs & E & _ & P);
         exists r, s'; split; [exact E|];
         intros R; exists x, y, z; repeat (split; [reflexivity|]);
         exact (proj1 (ecdsaVerify_path_true _ _ _ _ _ _ P) R));
    destruct s as [cc o h v om tr];
    unfold Nullable.Java_scalus_crypto_NativeSecp256k1_ecdsaVerify;
    rewrite (bind_ok _ _ _ _ _ (get_context_eq cc o h v om tr));
    destruct (context_in _) as [cx|]; try rejected;
    unfold orM, Nullable.length_differs; cbn [Nullable.GetArrayLength heap];
    try reflexivity;
    repeat advance;
    (destruct (Z.eqb_spec (Z.of_nat (length (h x))) 32) as [L1|L1];
     cbn [negb];
     [ length_is (length (h x)) 32 | length_is_not (length (h x)) 32 ]);
    repeat advance; try rejected; try reflexivity;
    (destruct (Z.eqb_spec (Z.of_nat (length (h y))) 64) as [L2|L2];
     cbn [negb];
     [ length_is (length (h y)) 64 | length_is_not (length (h y)) 64 ]);
    repeat advance; try rejected; reflexivity.
Qed.

Lemma schnorrVerify_nullable s a b c :
  if Nullable.schnorrVerify_reads_null s a b c
  then Nullable.Java_scalus_crypto_NativeSecp256k1_schnorrVerify a b c s
       = Fault
  else
    exists r s',
      Nullable.Java_scalus_crypto_NativeSecp256k1_schnorrVerify a b c s
      = Ok r s' /\
      (r = JNI_TRUE ->
       exists x y z,
         a = Some x /\ b = Some y /\ c = Some z /\
         schnorr_accepted s x y z).
Proof.
  unfold Nullable.schnorrVerify_reads_null.
  destruct a as [x|], b as [y|], c as [z|];
    try (cbn [is_null]; rewrite ?andb_false_r;
         replace (match context_in s with Some _ => false | None => false end)
           with false by (destruct (context_in s); reflexivity);
         rewrite schnorrVerify_on_arrays;
         destruct (schnorrVerify_run x y z s) as (r & s' & evs & E & _ & P);
         exists r, s'; split; [exact E|];
         intros R; exists x, y, z; repeat (split; [reflexivity|]);
         exact (proj1 (schnorrVerify_path_true _ _ _ _ _ _ P) R));
    destruct s as [cc o h v om tr];
    unfold Nullable.Java_scalus_crypto_NativeSecp256k1_schnorrVerify;
    rewrite (bind_ok _ _ _ _ _ (get_context_eq cc o h v om tr));
    destruct (context_in _) as [cx|]; try rejected;
    unfold orM, Nullable.length_differs; cbn [Nullable.GetArrayLength heap];
    try reflexivity;
    repeat advance;
    (destruct (Z.eqb_spec (Z.of_nat (length (h x))) 64) as [L1|L1];
     cbn [negb];
     [ length_is (length (h x)) 64 | length_is_not (length (h x)) 64 ]);
    repeat advance; try rejected; try reflexivity;
    (destruct (Z.eqb_spec (Z.of_nat (length (h z))) 32) as [L2|L2];
     cbn [negb];
     [ length_is (length (h z)) 32 | length_is_not (length (h z)) 32 ]);
    repeat advance; try rejected; reflexivity.
Qed.

Lemma isValidPubKey_nullable s a :
  if Nullable.isValidPubKey_reads_null s a
  then Nullable.Java_scalus_crypto_NativeSecp256k1_isValidPubKey a s = Fault
  else
    exists r s',
      Nullable.Java_scalus_crypto_NativeSecp256k1_isValidPubKey a s
      = Ok r s' /\
      (r = JNI_TRUE -> exists x, a = Some x /\ pubkey_accepted s x).
Proof.
  unfold Nullable.isValidPubKey_reads_null. destruct a as [x|].
  - cbn [is_null].
    replace (match context_in s with Some _ => false | None => false end)
      with false by (destruct (context_in s); reflexivity).
    rewrite isValidPubKey_on_array.
    destruct (isValidPubKey_run x s) as (r & s' & evs & E & _ & P).
    exists r, s'. split; [exact E|].
    intros R. exists x. split; [reflexivity|].
    exact (proj1 (isValidPubKey_path_true _ _ _ _ P) R).
  - pose proof (isValidPubKey_null s) as H.
    destruct (context_in s); cbn [is_null]; [exact H|].
    destruct H as (s' & E). exists JNI_FALSE, s'.
    split; [exact E | discriminate].
Qed.

(** C4, as the code has it: on array references that are not null each of
    the three operations returns, and what it returns is a boolean, true
    only when every step succeeded; no path ends in a fault.  A null
    reference is not tested: the call hands it to [GetArrayLength] and
    faults there, unless it has returned false before it reads the length
    of that array (no context, or an earlier length that is wrong). *)
Theorem operations_return_unless_null (s : Process) (a b c : option nat) :
  (if Nullable.isValidPubKey_reads_null s a
   then Nullable.Java_scalus_crypto_NativeSecp256k1_isValidPubKey a s
        = Fault
   else
     exists (r : bool) s',
       Nullable.Java_scalus_crypto_NativeSecp256k1_isValidPubKey a s
       = Ok r s' /\
       (r = JNI_TRUE -> exists x, a = Some x /\ pubkey_accepted s x)) /\
  (if Nullable.ecdsaVerify_reads_null s a b c
   then Nullable.Java_scalus_crypto_NativeSecp256k1_ecdsaVerify a b c s
        = Fault
   else
     exists (r : bool) s',
       Nullable.Java_scalus_crypto_NativeSecp256k1_ecdsaVerify a b c s
       = Ok r s' /\
       (r = JNI_TRUE ->
        exists x y z,
          a = Some x /\ b = Some y /\ c = Some z /\
          ecdsa_accepted s x y z)) /\
  (if Nullable.schnorrVerify_reads_null s a b c
   then Nullable.Java_scalus_crypto_NativeSecp256k1_schnorrVerify a b c s
        = Fault
   else
     exists (r : bool) s',
       Nullable.Java_scalus_crypto_NativeSecp256k1_schnorrVerify a b c s
       = Ok r s' /\
       (r = JNI_TRUE ->
        exists x y z,
          a = Some x /\ b = Some y /\ c = Some z /\
          schnorr_accepted s x y z)) /\
  (is_null a = false -> is_null b = false -> is_null c = false ->
   Nullable.isValidPubKey_reads_null s a = false /\
   Nullable.ecdsaVerify_reads_null s a b c = false /\
   Nullable.schnorrVerify_reads_null s a b c = false).
Proof.
  split; [exact (isValidPubKey_nullable s a)|].
  split; [exact (ecdsaVerify_nullable s a b c)|].
  split; [exact (schnorrVerify_nullable s a b c)|].
  intros Ha Hb Hc.
  destruct a as [x|], b as [y|], c as [z|]; try discriminate.
  unfold Nullable.isValidPubKey_reads_null, Nullable.ecdsaVerify_reads_null,
    Nullable.schnorrVerify_reads_null.
  cbn [is_null]. rewrite !andb_false_r.
  destruct (context_in s); auto.
Qed.

End NullReferences.

(** ** Same inputs, same result *)

Section Determinism.
Context {lib : Secp256k1}.

Lemma pubkey_accepted_transfer (s1 s2 : Process) a1 a2 :
  context_in s1 = context_in s2 ->
  heap s1 a1 = heap s2 a2 ->
  outcomes (pubkey_requests s1 a1) (oom s1)
  = outcomes (pubkey_requests s2 a2) (oom s2) ->
  pubkey_accepted s1 a1 -> pubkey_accepted s2 a2.
Proof.
  intros Hcx Ha Hom (cx & Hc & Ho & L & K).
  unfold pubkey_requests in Hom. rewrite <- Hcx, <- Ha, Hc in Hom.
  assert (E : (length (heap s1 a1) =? 33) || (length (heap s1 a1) =? 65)
              = true).
  { destruct L as [L|L]; rewrite L; reflexivity. }
  rewrite E in Hom.
  exists cx. rewrite <- Hcx, <- Ha.
  split; [exact Hc|]. split; [|split; assumption].
  rewrite allocs_ok_outcomes in *. rewrite <- Hom. exact Ho.
Qed.

Lemma ecdsa_accepted_transfer (s1 s2 : Process) a1 b1 c1 a2 b2 c2 :
  context_in s1 = context_in s2 ->
  heap s1 a1 = heap s2 a2 ->
  heap s1 b1 = heap s2 b2 ->
  heap s1 c1 = heap s2 c2 ->
  outcomes (ecdsa_requests s1 a1 b1 c1) (oom s1)
  = outcomes (ecdsa_requests s2 a2 b2 c2) (oom s2) ->
  ecdsa_accepted s1 a1 b1 c1 -> ecdsa_accepted s2 a2 b2 c2.
Proof.
  intros Hcx Ha Hb Hc Hom (cx & Hx & Ho & L1 & L2 & L3 & K).
  unfold ecdsa_requests in Hom.
  rewrite <- Hcx, <- Ha, <- Hb, <- Hc, Hx, L1, L2, L3 in Hom.
  cbn [Nat.eqb andb] in Hom.
  exists cx. rewrite <- Hcx, <- Ha, <- Hb, <- Hc.
  split; [exact Hx|]. split; [|repeat (split; [assumption|]); exact K].
  rewrite allocs_ok_outcomes in *. rewrite <- Hom. exact Ho.
Qed.

Lemma schnorr_accepted_transfer (s1 s2 : Process) a1 b1 c1 a2 b2 c2 :
  context_in s1 = context_in s2 ->
  heap s1 a1 = heap s2 a2 ->
  heap s1 b1 = heap s2 b2 ->
  heap s1 c1 = heap s2 c2 ->
  outcomes (schnorr_requests s1 a1 b1 c1) (oom s1)
  = outcomes (schnorr_requests s2 a2 b2 c2) (oom s2) ->
  schnorr_accepted s1 a1 b1 c1 -> schnorr_accepted s2 a2 b2 c2.
Proof.
  intros Hcx Ha Hb Hc Hom (cx & Hx & Ho & L1 & L2 & K).
  unfold schnorr_requests in Hom.
  rewrite <- Hcx, <- Ha, <- Hc, Hx, L1, L2 in Hom.
  cbn [Nat.eqb andb] in Hom.
  exists cx. rewrite <- Hcx, <- Ha, <- Hb, <- Hc.
  split; [exact Hx|]. split; [|repeat (split; [assumption|]); exact K].
  rewrite allocs_ok_outcomes in *. rewrite <- Hom. exact Ho.
Qed.

(** C9, as the code has it: the result of each operation is determined by
    the bytes of its input buffers, the state of the context manager and the
    outcomes of the view allocations it requests (one for [isValidPubKey],
    three for the two others, none for a call that stops at the context or
    at a length); two calls that agree on these return the same boolean.  A
    call leaves the Java heap and the set of views handed out as it found
    them. *)
Theorem same_inputs_same_result (s1 s2 : Process)
    (a1 b1 c1 a2 b2 c2 : jbyteArray) :
  ctx s1 = ctx s2 ->
  ctx_init_once s1 = ctx_init_once s2 ->
  (heap s1 a1 = heap s2 a2 ->
   outcomes (pubkey_requests s1 a1) (oom s1)
   = outcomes (pubkey_requests s2 a2) (oom s2) ->
   value (Java_scalus_crypto_NativeSecp256k1_isValidPubKey a1 s1)
   = value (Java_scalus_crypto_NativeSecp256k1_isValidPubKey a2 s2)) /\
  (heap s1 a1 = heap s2 a2 ->
   heap s1 b1 = heap s2 b2 ->
   heap s1 c1 = heap s2 c2 ->
   outcomes (ecdsa_requests s1 a1 b1 c1) (oom s1)
   = outcomes (ecdsa_requests s2 a2 b2 c2) (oom s2) ->
   value (Java_scalus_crypto_NativeSecp256k1_ecdsaVerify a1 b1 c1 s1)
   = value (Java_scalus_crypto_NativeSecp256k1_ecdsaVerify a2 b2 c2 s2)) /\
  (heap s1 a1 = heap s2 a2 ->
   heap s1 b1 = heap s2 b2 ->
   heap s1 c1 = heap s2 c2 ->
   outcomes (schnorr_requests s1 a1 b1 c1) (oom s1)
   = outcomes (schnorr_requests s2 a2 b2 c2) (oom s2) ->
   value (Java_scalus_crypto_NativeSecp256k1_schnorrVerify a1 b1 c1 s1)
   = value (Java_scalus_crypto_NativeSecp256k1_schnorrVerify a2 b2 c2 s2))
  /\
  (exists r s',
     Java_scalus_crypto_NativeSecp256k1_isValidPubKey a1 s1 = Ok r s' /\
     heap s' = heap s1 /\ views s' = views s1) /\
  (exists r s',
     Java_scalus_crypto_NativeSecp256k1_ecdsaVerify a1 b1 c1 s1 = Ok r s' /\
     heap s' = heap s1 /\ views s' = views s1) /\
  (exists r s',
     Java_scalus_crypto_NativeSecp256k1_schnorrVerify a1 b1 c1 s1
     = Ok r s' /\
     heap s' = heap s1 /\ views s' = views s1).
Proof.
  intros Hx Ho.
  pose proof (context_in_eq _ _ Hx Ho) as Hcx.
  destruct (isValidPubKey_run a1 s1) as (r1 & t1 & e1 & E1 & F1 & P1).
  destruct (isValidPubKey_run a2 s2) as (r2 & t2 & e2 & E2 & _ & P2).
  destruct (ecdsaVerify_run a1 b1 c1 s1) as (r3 & t3 & e3 & E3 & F3 & P3).
  destruct (ecdsaVerify_run a2 b2 c2 s2) as (r4 & t4 & e4 & E4 & _ & P4).
  destruct (schnorrVerify_run a1 b1 c1 s1) as (r5 & t5 & e5 & E5 & F5 & P5).
  destruct (schnorrVerify_run a2 b2 c2 s2) as (r6 & t6 & e6 & E6 & _ & P6).
  repeat split.
  - intros Ha Hom. rewrite E1, E2. cbn. f_equal.
    eapply bool_eq_iff;
      [ exact (isValidPubKey_path_true _ _ _ _ P1)
      | exact (isValidPubKey_path_true _ _ _ _ P2) | ].
    split; apply pubkey_accepted_transfer; auto.
  - intros Ha Hb Hc Hom. rewrite E3, E4. cbn. f_equal.
    eapply bool_eq_iff;
      [ exact (ecdsaVerify_path_true _ _ _ _ _ _ P3)
      | exact (ecdsaVerify_path_true _ _ _ _ _ _ P4) | ].
    split; apply ecdsa_accepted_transfer; auto.
  - intros Ha Hb Hc Hom. rewrite E5, E6. cbn. f_equal.
    eapply bool_eq_iff;
      [ exact (schnorrVerify_path_true _ _ _ _ _ _ P5)
      | exact (schnorrVerify_path_true _ _ _ _ _ _ P6) | ].
    split; apply schnorr_accepted_transfer; auto.
  - destruct F1 as (_ & _ & Fh & Fv & _). eauto.
  - destruct F3 as (_ & _ & Fh & Fv & _). eauto.
  - destruct F5 as (_ & _ & Fh & Fv & _). eauto.
Qed.

End Determinism.

(** ** Concurrent first use: the invariant *)

Module ConcurrentProofs.
Import Concurrent.
Section Threads.
Context {lib : Secp256k1}.

Lemma count_single f (e : Event) : count f [e] = if f e then 1 else 0.
Proof.
  unfold count. rewrite filter_cons, filter_nil.
  destruct (f e); reflexivity.
Qed.

Lemma constructed_log p0 sh k e :
  is_construction e = false ->
  constructed p0 sh k -> constructed p0 (log e sh) k.
Proof.
  intros He (evs & T & C). exists (evs ++ [e]). split.
  - destruct sh; cbn in *. rewrite T, app_assoc. reflexivity.
  - rewrite count_app, C, count_single, He. lia.
Qed.

Lemma constructed_init p0 sh sh' k :
  init_context sh = Ok tt sh' ->
  constructed p0 sh k -> constructed p0 sh' (S k).
Proof.
  intros E (evs & T & C). unfold init_context in E. injection E as <-.
  exists (evs ++ [EvContextCreate SECP256K1_CONTEXT_VERIFY]). split.
  - destruct sh; cbn in *. rewrite T, app_assoc. reflexivity.
  - rewrite count_app, C, count_single. cbn. lia.
Qed.

Lemma constructed_set_once p0 sh k o :
  constructed p0 sh k -> constructed p0 (set_once o sh) k.
Proof. intros (evs & T & C). exists evs. destruct sh; cbn in *. auto. Qed.

Lemma invariant_initial n p0 : invariant p0 (initial n p0).
Proof.
  split.
  - unfold shared_ok, initial. cbn [shared runner].
    assert (Z0 : constructed p0 p0 0)
      by (exists []; rewrite app_nil_r; auto).
    destruct (ctx_init_once p0) eqn:Ho.
    + split; [reflexivity|]. split; [auto|]. exists 0. auto.
    + unfold context_in, context_events. rewrite Ho. auto.
  - intros i t H. apply lookup_replicate in H as [-> _]. exact I.
Qed.

Lemma init_context_spec sh :
  exists sh',
    init_context sh = Ok tt sh' /\
    ctx_init_once sh' = ctx_init_once sh /\
    ctx sh' = context_create SECP256K1_CONTEXT_VERIFY.
Proof. eexists. split; [reflexivity|]. split; reflexivity. Qed.

Ltac other_threads i Ht Hi :=
  let j := fresh "j" in
  let u := fresh "u" in
  let Hj := fresh "Hj" in
  let Hne := fresh "Hne" in
  intros j u Hj; cbn [shared runner threads] in Hj |- *;
  destruct (decide (j = i)) as [->|Hne];
  [ rewrite list_lookup_insert_eq in Hj
      by (eapply lookup_lt_Some; exact Hi);
    injection Hj as <-
  | rewrite list_lookup_insert_ne in Hj by congruence;
    specialize (Ht j u Hj) ].

Ltac elsewhere :=
  match goal with
  | H : thread_ok _ _ _ ?u |- _ =>
      destruct u; cbn [thread_ok shared runner] in *;
      intuition congruence
  end.

Lemma invariant_step p0 i cf : invariant p0 cf -> invariant p0 (step i cf).
Proof.
  intros [Hs Ht]. unfold step.
  destruct (threads cf !! i) as [t|] eqn:Hi; [|split; assumption].
  pose proof (Ht i t Hi) as Hok.
  destruct cf as [sh r ts]. cbn [shared runner threads] in *.
  unfold shared_ok in Hs. cbn [shared runner] in Hs.
  destruct t; cbn [step_thread thread_ok shared runner] in *.
  - (* Idle *)
    split; [exact Hs|]. other_threads i Ht Hi; [exact I | elsewhere].
  - (* AtOnce *)
    destruct (ctx_init_once sh) eqn:Hc.
    + destruct Hs as (H0 & Hnone & k & Hk & Hcons).
      destruct r as [r|].
      * split; [unfold shared_ok; cbn [shared runner]; rewrite Hc; eauto|].
        exact Ht.
      * split.
        -- unfold shared_ok. cbn [shared runner].
           change (ctx_init_once (log EvPthreadOnce sh))
             with (ctx_init_once sh).
           rewrite Hc. split; [exact H0|]. split; [discriminate|].
           exists 0. split; [lia|].
           apply constructed_log; [reflexivity | auto].
        -- other_threads i Ht Hi; [|elsewhere].
           cbn [thread_ok shared runner].
           change (ctx_init_once (log EvPthreadOnce sh))
             with (ctx_init_once sh).
           split; [exact Hc|]. split; [reflexivity|].
           apply constructed_log; [reflexivity | auto].
    + destruct Hs as (Hx & Hcons). split.
      * unfold shared_ok. cbn [shared runner].
        change (ctx_init_once (log EvPthreadOnce sh))
          with (ctx_init_once sh).
        rewrite Hc. split; [exact Hx|].
        apply constructed_log; [reflexivity | exact Hcons].
      * other_threads i Ht Hi; [exact Hc | elsewhere].
  - (* InInit *)
    destruct Hok as (Hc & Hr & Hcons). rewrite Hc in Hs.
    destruct Hs as (H0 & _).
    destruct (init_context_spec sh) as (sh' & E & Eo & Ex).
    rewrite E. split.
    + unfold shared_ok. cbn [shared runner]. rewrite Eo, Hc.
      split; [exact H0|]. split; [congruence|].
      exists 1. split; [lia|]. exact (constructed_init _ _ _ _ E Hcons).
    + other_threads i Ht Hi; [|elsewhere].
      cbn [thread_ok shared runner]. rewrite Eo.
      split; [exact Hc|]. split; [exact Hr|].
      split; [exact (constructed_init _ _ _ _ E Hcons) | exact Ex].
  - (* InitReturned *)
    destruct Hok as (Hc & Hr & Hcons & Hx). rewrite Hc in Hs.
    destruct Hs as (H0 & _).
    split.
    + unfold shared_ok. cbn [shared runner].
      change (ctx_init_once (set_once PTHREAD_ONCE_DONE sh))
        with PTHREAD_ONCE_DONE.
      change (ctx (set_once PTHREAD_ONCE_DONE sh)) with (ctx sh).
      unfold context_in, context_events. rewrite H0. split; [exact Hx|].
      apply constructed_set_once. exact Hcons.
    + other_threads i Ht Hi; [reflexivity | elsewhere].
  - (* AfterOnce *)
    rewrite Hok in Hs. destruct Hs as (Hx & Hcons).
    split; [unfold shared_ok; cbn [shared runner]; rewrite Hok; auto|].
    other_threads i Ht Hi; [|elsewhere].
    cbn [thread_ok shared runner]. auto.
  - (* Returned *)
    split; [exact Hs|]. other_threads i Ht Hi; [exact I | elsewhere].
Qed.

Lemma invariant_run p0 sched cf :
  invariant p0 cf -> invariant p0 (run sched cf).
Proof.
  revert cf. induction sched as [|i sched IH]; intros cf H; [exact H|].
  change (run (i :: sched) cf) with (run sched (step i cf)).
  apply IH, invariant_step, H.
Qed.

Lemma first_call p0 sh :
  ctx_init_once p0 = PTHREAD_ONCE_INIT ->
  init_context (log EvPthreadOnce p0) = Ok tt sh ->
  get_context p0 = Ok (context_in p0) (set_once PTHREAD_ONCE_DONE sh).
Proof.
  intros H E. destruct p0 as [c o h v om tr]. cbn in H. subst o.
  unfold init_context in E. injection E as <-. reflexivity.
Qed.

Lemma later_call sh :
  ctx_init_once sh = PTHREAD_ONCE_DONE ->
  get_context sh = Ok (ctx sh) (log EvPthreadOnce sh).
Proof.
  intros H. destruct sh as [c o h v om tr]. cbn in H. subst o. reflexivity.
Qed.

Lemma get_context_value p0 : value (get_context p0) = Some (context_in p0).
Proof.
  destruct p0 as [c o h v om tr]. rewrite get_context_eq. reflexivity.
Qed.

Lemma get_context_times_snoc m p l s c s' :
  get_context_times m p = Ok l s ->
  get_context s = Ok c s' ->
  get_context_times (S m) p = Ok (l ++ [c]) s'.
Proof.
  revert p l. induction m as [|m IH]; intros p l E G.
  - cbn in E. injection E as <- <-.
    cbn [get_context_times]. rewrite (bind_ok _ _ _ _ _ G). reflexivity.
  - cbn [get_context_times] in E.
    destruct p as [c0 o h v om tr].
    rewrite (bind_ok _ _ _ _ _ (get_context_eq c0 o h v om tr)) in E.
    unfold bindM at 1 in E.
    destruct (get_context_times m _) as [l1 s1|] eqn:E1; [|discriminate].
    cbn [retM] in E. injection E as <- <-.
    specialize (IH _ _ E1 G).
    change (get_context_times (S (S m)))
      with (bindM get_context (fun c1 =>
              bindM (get_context_times (S m))
                (fun cs => retM (c1 :: cs)))).
    rewrite (bind_ok _ _ _ _ _ (get_context_eq c0 o h v om tr)).
    rewrite (bind_ok _ _ _ _ _ IH). reflexivity.
Qed.

Lemma linear_initial n p0 : linear p0 (initial n p0).
Proof.
  unfold linear, initial. cbn [runner shared].
  destruct (ctx_init_once p0); [reflexivity|].
  exists 0. reflexivity.
Qed.

Lemma linear_step p0 i cf :
  invariant p0 cf -> linear p0 cf -> linear p0 (step i cf).
Proof.
  intros [Hs Ht] Hl. unfold step.
  destruct (threads cf !! i) as [t|] eqn:Hi; [|exact Hl].
  pose proof (Ht i t Hi) as Hok.
  destruct cf as [sh r ts]. cbn [shared runner threads] in *.
  unfold linear in *. cbn [shared runner threads] in *.
  unfold shared_ok in Hs. cbn [shared runner] in Hs.
  destruct r as [r|].
  - destruct Hl as (H0 & Hl).
    assert (Hc : ctx_init_once sh = PTHREAD_ONCE_INIT).
    { destruct Hl as [(_ & ->) | (_ & E)]; [exact H0|].
      injection E as <-. exact H0. }
    destruct (decide (i = r)) as [->|Hne].
    + destruct Hl as [(Hr & Hsh) | (Hr & E)];
        rewrite Hi in Hr; injection Hr as ->; cbn [step_thread].
      * destruct (init_context_spec sh) as (sh' & E & _ & _).
        rewrite E. cbn [runner threads shared].
        split; [exact H0|]. right. split.
        -- apply list_lookup_insert_eq. eapply lookup_lt_Some. exact Hi.
        -- rewrite <- Hsh. exact E.
      * cbn [runner threads shared].
        change (ctx_init_once (set_once PTHREAD_ONCE_DONE sh))
          with PTHREAD_ONCE_DONE. cbv iota.
        exists 1. cbn [get_context_times replicate].
        rewrite (bind_ok _ _ _ _ _ (first_call _ _ H0 E)). reflexivity.
    + destruct t; cbn [step_thread thread_ok shared runner] in *.
      * cbn [runner threads shared]. split; [exact H0|].
        rewrite list_lookup_insert_ne by congruence. exact Hl.
      * rewrite Hc. cbn [runner threads shared]. split; assumption.
      * destruct Hok as (_ & Hr & _). congruence.
      * destruct Hok as (_ & Hr & _). congruence.
      * congruence.
      * destruct Hok as (Hd & _). congruence.
  - destruct t; cbn [step_thread thread_ok shared runner] in *.
    + exact Hl.
    + destruct (ctx_init_once sh) eqn:Hc; cbn [runner threads shared].
      * subst sh. split; [exact Hc|]. left. split; [|reflexivity].
        apply list_lookup_insert_eq. eapply lookup_lt_Some. exact Hi.
      * change (ctx_init_once (log EvPthreadOnce sh))
          with (ctx_init_once sh). rewrite Hc.
        destruct Hl as [m Hm]. destruct Hs as (Hx & _).
        exists (S m).
        rewrite (get_context_times_snoc _ _ _ _ _ _ Hm (later_call _ Hc)).
        rewrite Hx. f_equal.
        change (replicate (S m) (context_in p0))
          with (context_in p0 :: replicate m (context_in p0)).
        symmetry. apply replicate_cons_app.
    + destruct Hok as (_ & Hr & _). discriminate.
    + destruct Hok as (_ & Hr & _). discriminate.
    + exact Hl.
    + exact Hl.
Qed.

Lemma reachable p0 n sched :
  invariant p0 (run sched (initial n p0)) /\
  linear p0 (run sched (initial n p0)).
Proof.
  assert (G : forall cf, invariant p0 cf /\ linear p0 cf ->
                invariant p0 (run sched cf) /\ linear p0 (run sched cf)).
  { induction sched as [|i sched IH]; intros cf H; [exact H|].
    change (run (i :: sched) cf) with (run sched (step i cf)).
    apply IH. destruct H as [Hi Hl].
    split; [apply invariant_step, Hi | apply linear_step; assumption]. }
  apply G. split; [apply invariant_initial | apply linear_initial].
Qed.

Lemma context_events_constructions p0 :
  count is_construction (context_events p0) <= 1 /\
  (ctx_init_once p0 = PTHREAD_ONCE_DONE ->
   count is_construction (context_events p0) = 0).
Proof.
  rewrite context_events_count. destruct (ctx_init_once p0).
  - split; [lia | discriminate].
  - split; [lia | reflexivity].
Qed.

(** C8: whatever the order in which [n] threads take their steps through
    [get_context] on one process, the shared trace gains at most one call
    of [secp256k1_context_create], and none if the control was already
    done; at most one thread is inside the routine of [pthread_once];
    while one is, no thread has come out of [pthread_once]; a thread that
    has come out finds the control done and in [ctx] the context that
    [get_context] returns on the process the threads started on, its
    construction in the trace; every thread returns that context; and
    whenever no thread is inside the routine the shared process is the one
    that some number of calls of [get_context], one after the other,
    produce, each of them answering that context. *)
Theorem context_constructed_once (n : nat) (p0 : Process)
    (sched : list nat) :
  let cf := run sched (initial n p0) in
  (exists evs,
     trace (shared cf) = trace p0 ++ evs /\
     count is_construction evs <= 1 /\
     (ctx_init_once p0 = PTHREAD_ONCE_DONE ->
      count is_construction evs = 0)) /\
  (forall i j ti tj,
     threads cf !! i = Some ti -> threads cf !! j = Some tj ->
     in_routine ti = true -> in_routine tj = true -> i = j) /\
  (forall i j ti tj,
     threads cf !! i = Some ti -> threads cf !! j = Some tj ->
     in_routine ti = true -> past_once tj = false) /\
  (forall i t,
     threads cf !! i = Some t -> past_once t = true ->
     ctx_init_once (shared cf) = PTHREAD_ONCE_DONE /\
     value (get_context p0) = Some (ctx (shared cf)) /\
     constructed p0 (shared cf)
       (count is_construction (context_events p0))) /\
  (forall i c,
     threads cf !! i = Some (Returned c) ->
     value (get_context p0) = Some c) /\
  ((forall i t, threads cf !! i = Some t -> in_routine t = false) ->
   exists m,
     get_context_times m p0 =
     Ok (replicate m (context_in p0)) (shared cf)).
Proof.
  intros cf. destruct (reachable p0 n sched) as [[Hs Ht] Hl].
  fold cf in Hs, Ht, Hl.
  pose proof (context_events_constructions p0) as [Hle Hz].
  unfold shared_ok in Hs.
  split; [|split; [|split; [|split; [|split]]]].
  - destruct (ctx_init_once (shared cf)) eqn:Hc.
    + destruct Hs as (H0 & _ & k & Hk & evs & E & Ek).
      exists evs. split; [exact E|]. split; [lia | congruence].
    + destruct Hs as (_ & evs & E & Ek).
      exists evs. split; [exact E|]. split; [lia|].
      intros Hd. rewrite Ek. exact (Hz Hd).
  - intros i j ti tj Hi Hj Ri Rj.
    pose proof (Ht i ti Hi) as Oi. pose proof (Ht j tj Hj) as Oj.
    assert (Some i = Some j) as [= ->]; [|reflexivity].
    destruct ti; try discriminate; destruct tj; try discriminate;
      cbn [thread_ok] in Oi, Oj;
      destruct Oi as (_ & <- & _); destruct Oj as (_ & <- & _);
      reflexivity.
  - intros i j ti tj Hi Hj Ri.
    pose proof (Ht i ti Hi) as Oi. pose proof (Ht j tj Hj) as Oj.
    destruct ti; try discriminate; destruct tj; try reflexivity;
      cbn [thread_ok] in Oi, Oj; destruct Oi as (Hc & _);
      try destruct Oj as (Hd & _); congruence.
  - intros i t Hi Pt. pose proof (Ht i t Hi) as Oi.
    assert (Hd : ctx_init_once (shared cf) = PTHREAD_ONCE_DONE).
    { destruct t; try discriminate; cbn [thread_ok] in Oi;
        [exact Oi | exact (proj1 Oi)]. }
    rewrite Hd in Hs. destruct Hs as (Hx & Hcons).
    split; [exact Hd|]. split; [|exact Hcons].
    rewrite get_context_value, Hx. reflexivity.
  - intros i c Hi. pose proof (Ht i _ Hi) as (_ & ->).
    apply get_context_value.
  - intros Hq. unfold linear in Hl.
    destruct (runner cf) as [r|].
    + destruct Hl as (_ & [(Hr & _) | (Hr & _)]);
        specialize (Hq _ _ Hr); discriminate.
    + destruct (ctx_init_once (shared cf)); [|exact Hl].
      exists 0. rewrite Hl. reflexivity.
Qed.

(** *** Calls complete *)

Lemma step_eq i sh r ts t :
  ts !! i = Some t ->
  step i (mkConfig sh r ts) =
  match step_thread i sh r t with
  | Some (sh', r', t') => mkConfig sh' r' (<[i := t']> ts)
  | None => mkConfig sh r ts
  end.
Proof. intros Hi. unfold step. cbn [threads shared runner]. rewrite Hi. reflexivity. Qed.

Lemma lookup_stepped (ts : list pc) i t t' :
  ts !! i = Some t -> <[i := t']> ts !! i = Some t'.
Proof. intros H. apply list_lookup_insert_eq. eapply lookup_lt_Some, H. Qed.

Lemma run_app a b cf : run (a ++ b) cf = run b (run a cf).
Proof. apply fold_left_app. Qed.

Lemma length_threads_run sched cf :
  length (threads (run sched cf)) = length (threads cf).
Proof.
  revert cf. induction sched as [|i sched IH]; intros cf; [reflexivity|].
  change (run (i :: sched) cf) with (run sched (step i cf)).
  rewrite IH. unfold step.
  destruct (threads cf !! i) as [t|]; [|reflexivity].
  destruct (step_thread i (shared cf) (runner cf) t) as [[[sh r] t']|];
    [|reflexivity].
  cbn [threads]. apply length_insert.
Qed.

Ltac move_thread i t Hi :=
  rewrite (step_eq i _ _ _ t) by
    (first [exact Hi | eapply lookup_stepped; exact Hi]);
  cbn [step_thread].


Lemma finish_after_once sh r ts i :
  ts !! i = Some AfterOnce ->
  exists c, threads (run [i] (mkConfig sh r ts)) !! i = Some (Returned c).
Proof.
  intros Hi. change (run [i] (mkConfig sh r ts))
    with (step i (mkConfig sh r ts)).
  move_thread i AfterOnce Hi. cbn [threads]. eexists.
  eapply lookup_stepped. exact Hi.
Qed.

Lemma finish_at_once_done sh r ts i :
  ctx_init_once sh = PTHREAD_ONCE_DONE ->
  ts !! i = Some AtOnce ->
  exists c,
    threads (run [i; i] (mkConfig sh r ts)) !! i = Some (Returned c).
Proof.
  intros Hc Hi. change (run [i; i] (mkConfig sh r ts))
    with (run [i] (step i (mkConfig sh r ts))).
  move_thread i AtOnce Hi. rewrite Hc.
  apply finish_after_once. eapply lookup_stepped. exact Hi.
Qed.

Lemma finish_init_returned sh r ts i :
  ts !! i = Some InitReturned ->
  exists c,
    threads (run [i; i] (mkConfig sh r ts)) !! i = Some (Returned c).
Proof.
  intros Hi. change (run [i; i] (mkConfig sh r ts))
    with (run [i] (step i (mkConfig sh r ts))).
  move_thread i InitReturned Hi.
  apply finish_after_once. eapply lookup_stepped. exact Hi.
Qed.

Lemma finish_in_init sh r ts i :
  ts !! i = Some InInit ->
  exists c,
    threads (run [i; i; i] (mkConfig sh r ts)) !! i = Some (Returned c).
Proof.
  intros Hi. change (run [i; i; i] (mkConfig sh r ts))
    with (run [i; i] (step i (mkConfig sh r ts))).
  move_thread i InInit Hi.
  destruct (init_context_spec sh) as (sh' & E & _ & _). rewrite E.
  apply finish_init_returned. eapply lookup_stepped. exact Hi.
Qed.

Lemma finish_at_once p0 sh r ts i :
  linear p0 (mkConfig sh r ts) ->
  ts !! i = Some AtOnce ->
  exists more c,
    length more <= 4 /\
    threads (run more (mkConfig sh r ts)) !! i = Some (Returned c).
Proof.
  intros Hl Hi. unfold linear in Hl. cbn [runner shared threads] in Hl.
  destruct (ctx_init_once sh) eqn:Hc.
  - destruct r as [r|].
    + destruct Hl as (_ & [(Hr & _) | (Hr & _)]).
      * assert (Hne : i <> r) by congruence.
        destruct (init_context_spec sh) as (sh' & E & _ & _).
        assert (R : run [r; r] (mkConfig sh (Some r) ts) =
                    mkConfig (set_once PTHREAD_ONCE_DONE sh') None
                      (<[r := AfterOnce]> ts)).
        { change (run [r; r] (mkConfig sh (Some r) ts))
            with (step r (step r (mkConfig sh (Some r) ts))).
          move_thread r InInit Hr. rewrite E.
          move_thread r InitReturned Hr.
          rewrite list_insert_insert_eq. reflexivity. }
        destruct (finish_at_once_done (set_once PTHREAD_ONCE_DONE sh') None
                    (<[r := AfterOnce]> ts) i) as [c Hcx];
          [reflexivity
          | rewrite list_lookup_insert_ne by congruence; exact Hi |].
        exists [r; r; i; i], c. split; [cbn; lia|].
        change [r; r; i; i] with ([r; r] ++ [i; i]).
        rewrite run_app, R. exact Hcx.
      * assert (Hne : i <> r) by congruence.
        assert (R : run [r] (mkConfig sh (Some r) ts) =
                    mkConfig (set_once PTHREAD_ONCE_DONE sh) None
                      (<[r := AfterOnce]> ts)).
        { change (run [r] (mkConfig sh (Some r) ts))
            with (step r (mkConfig sh (Some r) ts)).
          move_thread r InitReturned Hr. reflexivity. }
        destruct (finish_at_once_done (set_once PTHREAD_ONCE_DONE sh) None
                    (<[r := AfterOnce]> ts) i) as [c Hcx];
          [reflexivity
          | rewrite list_lookup_insert_ne by congruence; exact Hi |].
        exists [r; i; i], c. split; [cbn; lia|].
        change [r; i; i] with ([r] ++ [i; i]).
        rewrite run_app, R. exact Hcx.
    + destruct (finish_in_init (log EvPthreadOnce sh) (Some i)
                  (<[i := InInit]> ts) i) as [c Hcx];
        [eapply lookup_stepped; exact Hi|].
      exists [i; i; i; i], c. split; [cbn; lia|].
      change (run [i; i; i; i] (mkConfig sh None ts))
        with (run [i; i; i] (step i (mkConfig sh None ts))).
      move_thread i AtOnce Hi. rewrite Hc. exact Hcx.
  - destruct (finish_at_once_done sh r ts i Hc Hi) as [c Hcx].
    exists [i; i], c. split; [cbn; lia | exact Hcx].
Qed.

Lemma progress p0 cf i t :
  invariant p0 cf -> linear p0 cf ->
  threads cf !! i = Some t ->
  exists more c,
    length more <= 5 /\
    threads (run more cf) !! i = Some (Returned c).
Proof.
  intros Hv Hl Hi. destruct t.
  - pose proof (invariant_step p0 i cf Hv) as Hv1.
    pose proof (linear_step p0 i cf Hv Hl) as Hl1.
    destruct cf as [sh r ts]. cbn [threads] in Hi.
    rewrite (step_eq i sh r ts Idle Hi) in Hv1, Hl1.
    cbn [step_thread] in Hv1, Hl1.
    destruct (finish_at_once p0 sh r (<[i := AtOnce]> ts) i Hl1)
      as (more & c & Hlen & Hcx);
      [eapply lookup_stepped; exact Hi|].
    exists (i :: more), c. split; [cbn [length]; lia|].
    change (run (i :: more) (mkConfig sh r ts))
      with (run more (step i (mkConfig sh r ts))).
    rewrite (step_eq i sh r ts Idle Hi). exact Hcx.
  - destruct cf as [sh r ts]. cbn [threads] in Hi.
    destruct (finish_at_once p0 sh r ts i Hl Hi)
      as (more & c & Hlen & Hcx).
    exists more, c. split; [lia | exact Hcx].
  - destruct cf as [sh r ts]. cbn [threads] in Hi.
    destruct (finish_in_init sh r ts i Hi) as [c Hcx].
    exists [i; i; i], c. split; [cbn; lia | exact Hcx].
  - destruct cf as [sh r ts]. cbn [threads] in Hi.
    destruct (finish_init_returned sh r ts i Hi) as [c Hcx].
    exists [i; i], c. split; [cbn; lia | exact Hcx].
  - destruct cf as [sh r ts]. cbn [threads] in Hi.
    destruct (finish_after_once sh r ts i Hi) as [c Hcx].
    exists [i], c. split; [cbn; lia | exact Hcx].
  - exists [], c. split; [cbn; lia | exact Hi].
Qed.

(** X8: no call of [get_context] is stuck.  From whatever the threads have
    done so far, at most five further steps bring any one of them to the
    return of [get_context], with the context that [get_context] returns
    on the process the threads started on: a thread that waits in
    [pthread_once] goes on once the thread inside the routine has come
    out. *)
Theorem every_call_can_complete (n : nat) (p0 : Process)
    (sched : list nat) (i : nat) :
  i < n ->
  exists more c,
    length more <= 5 /\
    threads (run (sched ++ more) (initial n p0)) !! i = Some (Returned c) /\
    value (get_context p0) = Some c.
Proof.
  intros Hin.
  destruct (reachable p0 n sched) as [Hv Hl].
  assert (Hlook : is_Some (threads (run sched (initial n p0)) !! i)).
  { apply lookup_lt_is_Some_2. rewrite length_threads_run.
    cbn [initial threads]. rewrite length_replicate. exact Hin. }
  destruct Hlook as [t Hi].
  destruct (progress p0 _ i t Hv Hl Hi) as (more & c & Hlen & Hcx).
  exists more, c. split; [exact Hlen|].
  rewrite run_app. split; [exact Hcx|].
  rewrite <- run_app in Hcx.
  destruct (reachable p0 n (sched ++ more)) as [[_ Ht] _].
  pose proof (Ht i _ Hcx) as (_ & ->).
  apply get_context_value.
Qed.

End Threads.
End ConcurrentProofs.

(** ** Null references, allocation outcomes and threads on concrete runs *)

Module Scenarios.
Import TestDouble.
Import Concurrent.

(** C4 does not hold as stated: with a context at hand, a call on a null
    array reference faults in [GetArrayLength]; no boolean is returned. *)
Lemma null_reference_faults :
  Nullable.Java_scalus_crypto_NativeSecp256k1_isValidPubKey None
    (fresh_process true []) = Fault /\
  Nullable.Java_scalus_crypto_NativeSecp256k1_ecdsaVerify
    (Some 0) None (Some 2) (fresh_process true []) = Fault /\
  Nullable.Java_scalus_crypto_NativeSecp256k1_schnorrVerify
    (Some 5) None (Some 3) (fresh_process true []) = Fault /\
  ~ (exists (r : bool) s',
       Nullable.Java_scalus_crypto_NativeSecp256k1_isValidPubKey None
         (fresh_process true []) = Ok r s').
Proof.
  split; [reflexivity|]. split; [reflexivity|]. split; [reflexivity|].
  intros (r & s' & E). discriminate E.
Qed.

(** A null reference that is never read does no harm: without a context the
    call returns false before it reads any length. *)
Example null_reference_unread :
  value (Nullable.Java_scalus_crypto_NativeSecp256k1_isValidPubKey None
           (fresh_process false [])) = Some false /\
  value (Nullable.Java_scalus_crypto_NativeSecp256k1_ecdsaVerify
           (Some 4) None None (fresh_process true [])) = Some false.
Proof. split; reflexivity. Qed.

Lemma operations_return_unless_null_witness :
  is_null (Some 0) = false /\
  is_null (Some 1) = false /\
  is_null (Some 2) = false /\
  exists (r : bool) s',
    Nullable.Java_scalus_crypto_NativeSecp256k1_ecdsaVerify
      (Some 0) (Some 1) (Some 2) (fresh_process true []) = Ok r s'.
Proof.
  split; [reflexivity|]. split; [reflexivity|]. split; [reflexivity|].
  destruct (operations_return_unless_null (fresh_process true [])
              (Some 0) (Some 1) (Some 2)) as (_ & H & _ & N).
  destruct (N eq_refl eq_refl eq_refl) as (_ & N2 & _).
  rewrite N2 in H. destruct H as (r & s' & E & _).
  exists r, s'. exact E.
Defined.

(** [isValidPubKey] asks for one view: what a second allocation would do
    does not change its result. *)
Lemma same_inputs_same_result_witness :
  oom (ready_process [false; true]) <> oom (ready_process [false; false]) /\
  value (Java_scalus_crypto_NativeSecp256k1_isValidPubKey 2
           (ready_process [false; true]))
  = value (Java_scalus_crypto_NativeSecp256k1_isValidPubKey 2
             (ready_process [false; false])).
Proof.
  split; [discriminate|].
  destruct (same_inputs_same_result
              (ready_process [false; true]) (ready_process [false; false])
              2 0 1 2 0 1 eq_refl eq_refl) as (H & _).
  apply H; reflexivity.
Defined.

(** Two threads make the first call together: thread 1 arrives while
    thread 0 is inside the routine and does not move; in the end both
    return the one context. *)
Lemma context_constructed_once_witness :
  let p0 := fresh_process true [] in
  let cf := run [0; 0; 1; 1; 0; 0; 1; 1; 0] (initial 2 p0) in
  run [0; 0; 1; 1] (initial 2 p0) = run [0; 0; 1] (initial 2 p0) /\
  threads cf !! 0 = Some (@Returned (library true) (Some tt)) /\
  threads cf !! 1 = Some (@Returned (library true) (Some tt)) /\
  count is_construction (trace (shared cf)) = 1 /\
  value (get_context p0) = Some (Some tt).
Proof.
  intros p0 cf.
  split; [reflexivity|].
  assert (H0 : threads cf !! 0 = Some (@Returned (library true) (Some tt)))
    by reflexivity.
  split; [exact H0|]. split; [reflexivity|]. split; [reflexivity|].
  destruct (ConcurrentProofs.context_constructed_once 2 p0
              [0; 0; 1; 1; 0; 0; 1; 1; 0]) as (_ & _ & _ & _ & R & _).
  exact (R 0 (Some tt) H0).
Defined.


(** Thread 1 waits in [pthread_once] while thread 0 is inside the routine:
    it can still come to its return. *)
Lemma every_call_can_complete_witness :
  1 < 2 /\
  exists more c,
    length more <= 5 /\
    threads (run ([0; 0; 1; 1] ++ more) (initial 2 (fresh_process true [])))
      !! 1 = Some (Returned c) /\
    value (get_context (fresh_process true [])) = Some c.
Proof.
  split; [lia|].
  apply (ConcurrentProofs.every_call_can_complete 2
           (fresh_process true []) [0; 0; 1; 1] 1). lia.
Defined.

End Scenarios.
